(** * Authority endpoint resolution (package [requests])

    A shallow embedding of
    [src/internal/requests/authority_endpoint_resolution_manager.go]
    together with the parts of Go's [strings] package that it calls, and of
    the tenant table of [TestAcquireTokenWithTenantID].

    Conventions of the embedding:
    - a Go [string] is a [string] of bytes;
    - a Go [map[string]T] is a [gmap string T];
    - the package-level variable [endpointCacheEntries] is a field of the
      process state [World], which every method threads explicitly;
    - a Go run-time panic is an outcome of its own, distinct from a
      returned [error];
    - calls are taken one at a time, and the [log.Info] lines are left
      out. *)

From Stdlib Require Import ZArith Ascii String.
From stdpp Require Import base option list strings pretty gmap fin_maps fin_map_dom.

Local Open Scope Z_scope.
Local Open Scope nat_scope.

(** ** Go's [strings] package *)

Module Strings.

(** [s[:m]] *)
Fixpoint slice_to (m : nat) (s : string) : string :=
  match m, s with
  | S m', String c s' => String c (slice_to m' s')
  | _, _ => EmptyString
  end.

(** [s[m:]] *)
Fixpoint slice_from (m : nat) (s : string) : string :=
  match m, s with
  | S m', String _ s' => slice_from m' s'
  | _, _ => s
  end.

(** [strings.HasPrefix(s, prefix)] *)
Fixpoint HasPrefix (s prefix : string) {struct prefix} : bool :=
  match prefix, s with
  | EmptyString, _ => true
  | String p prefix', String c s' =>
      if decide (c = p) then HasPrefix s' prefix' else false
  | String _ _, EmptyString => false
  end.

(** [strings.Index(s, substr)]: the index of the first instance of
    [substr] in [s]; Go's [-1] is [None]. *)
Fixpoint Index (s substr : string) : option nat :=
  if HasPrefix s substr then Some 0
  else match s with
       | EmptyString => None
       | String _ s' => S <$> Index s' substr
       end.

(** [strings.Contains(s, substr)] is [Index(s, substr) >= 0]. *)
Definition Contains (s substr : string) : bool :=
  match Index s substr with Some _ => true | None => false end.

(** The loop of [strings.Count] for a non-empty [substr]:
    [for { i := Index(s, substr); if i == -1 { return n }; n++;
           s = s[i+len(substr):] }].
    Every round consumes at least one byte, so [String.length s] rounds
    are enough (see [Count_loop_fuel]). *)
Fixpoint Count_loop (fuel : nat) (s substr : string) : nat :=
  match fuel with
  | 0 => 0
  | S fuel' =>
      match Index s substr with
      | None => 0
      | Some i =>
          S (Count_loop fuel' (slice_from (i + String.length substr) s) substr)
      end
  end.

(** [strings.Count(s, substr)]; for the empty [substr] Go returns the
    number of runes plus one, which is the number of bytes plus one on
    single-byte text. *)
Definition Count (s substr : string) : nat :=
  match substr with
  | EmptyString => String.length s + 1
  | _ => Count_loop (String.length s) s substr
  end.

(** [explode(s, -1)], on single-byte text. *)
Fixpoint explode (s : string) : list string :=
  match s with
  | EmptyString => []
  | String c s' => String c EmptyString :: explode s'
  end.

(** The loop of [genSplit] with [sepSave = 0]: [n] is the number of
    separators still to be cut. *)
Fixpoint genSplit_loop (n : nat) (s sep : string) : list string :=
  match n with
  | 0 => [s]
  | S n' =>
      match Index s sep with
      | None => [s]
      | Some m =>
          slice_to m s
            :: genSplit_loop n' (slice_from (m + String.length sep) s) sep
      end
  end.

(** [strings.Split(s, sep)] = [genSplit(s, sep, 0, -1)]. *)
Definition Split (s sep : string) : list string :=
  match sep with
  | EmptyString => explode s
  | _ => genSplit_loop (Count s sep) s sep
  end.

(** [strings.Join(elems, sep)] *)
Fixpoint Join (elems : list string) (sep : string) : string :=
  match elems with
  | [] => EmptyString
  | [e] => e
  | e :: (_ :: _) as rest => e +:+ sep +:+ Join rest sep
  end.

(** The replacement loop of [strings.Replace] for a non-empty [old]:
    [n] replacements are still to be made. *)
Fixpoint Replace_loop (n : nat) (s old new : string) : string :=
  match n with
  | 0 => s
  | S n' =>
      match Index s old with
      | None => s
      | Some j =>
          slice_to j s +:+ new
            +:+ Replace_loop n' (slice_from (j + String.length old) s) old new
      end
  end.

(** The replacement loop for the empty [old]: [new] is inserted at the
    start and after every byte, up to [n] times. *)
Fixpoint Replace_empty (n : nat) (first : bool) (s new : string) : string :=
  match n with
  | 0 => s
  | S n' =>
      if first then new +:+ Replace_empty n' false s new
      else match s with
           | EmptyString => new
           | String c s' => String c (new +:+ Replace_empty n' false s' new)
           end
  end.

(** [strings.Replace(s, old, new, n)]; a negative [n] puts no limit on
    the number of replacements. *)
Definition Replace (s old new : string) (n : Z) : string :=
  if bool_decide (old = new) || bool_decide (n = 0%Z) then s
  else
    let m := Count s old in
    if bool_decide (m = 0) then s
    else
      let n' := if bool_decide (n < 0)%Z || bool_decide (Z.of_nat m < n)%Z
                then m else Z.to_nat n in
      match old with
      | EmptyString => Replace_empty n' true s new
      | _ => Replace_loop n' s old new
      end.

End Strings.

Arguments Strings.Count : simpl never.
Arguments Strings.Split : simpl never.
Arguments Strings.Replace : simpl never.

(** "Every occurrence of [old] replaced by [new]", said without the loop:
    either [old] occurs nowhere and the text is kept, or the text is cut
    at the leftmost occurrence, which becomes [new], and the rest is treated
    in the same way. *)
Inductive ReplacedEvery (old new : string) : string → string → Prop :=
| replaced_none s :
    (∀ a b, s ≠ a +:+ old +:+ b) → ReplacedEvery old new s s
| replaced_first a b r :
    (∀ a' b', a +:+ old +:+ b = a' +:+ old +:+ b' →
              String.length a ≤ String.length a') →
    ReplacedEvery old new b r →
    ReplacedEvery old new (a +:+ old +:+ b) (a +:+ new +:+ r).

(** ** Package [msalbase]: the declarations the resolver uses *)

(** [msalbase.AuthorityType]: the resolver only tells [ADFS] from the
    rest; [MSSTS] is the other value the repository names. *)
Inductive AuthorityType := MSSTS | ADFS.

#[global] Instance AuthorityType_eq_dec : EqDecision AuthorityType.
Proof. solve_decision. Defined.

(** [msalbase.AuthorityInfo], with the fields read by the resolver. *)
Record AuthorityInfo := {
  Host : string;
  Tenant : string;
  AuthorityType_of : AuthorityType;
  CanonicalAuthorityURI : string;
  ValidateAuthority : bool
}.

(** Modelled from the spec: [msalbase.AuthorityEndpoints] is declared
    outside the file; section 3 gives it the four fields
    [{authorizationEndpoint, tokenEndpoint, issuer, host}], which are the four
    arguments of [msalbase.CreateAuthorityEndpoints] in this order. *)
Record AuthorityEndpoints := CreateAuthorityEndpoints {
  authorizationEndpoint : string;
  tokenEndpoint : string;
  issuer : string;
  host : string
}.

#[global] Instance AuthorityEndpoints_eq_dec : EqDecision AuthorityEndpoints.
Proof. solve_decision. Defined.

(** [requests.TenantDiscoveryResponse]: the three fields the resolver and
    the test fixture [tdr] name. *)
Record TenantDiscoveryResponse := {
  AuthorizationEndpoint : string;
  TokenEndpoint : string;
  Issuer : string
}.

(** Modelled from the spec: the three [Has...] methods of
    [TenantDiscoveryResponse] are declared outside the file; section 4.1
    asks for a non-empty authorization endpoint, token endpoint and
    issuer. *)
Definition HasAuthorizationEndpoint (r : TenantDiscoveryResponse) : bool :=
  negb (bool_decide (AuthorizationEndpoint r = "")).

(** Modelled from the spec: see [HasAuthorizationEndpoint]. *)
Definition HasTokenEndpoint (r : TenantDiscoveryResponse) : bool :=
  negb (bool_decide (TokenEndpoint r = "")).

(** Modelled from the spec: see [HasAuthorizationEndpoint]. *)
Definition HasIssuer (r : TenantDiscoveryResponse) : bool :=
  negb (bool_decide (Issuer r = "")).

(** ** Errors, results and the process state *)

(** A Go [error] value, identified by its message ([errors.New]). *)
Inductive error := errors_New (msg : string).

#[global] Instance error_eq_dec : EqDecision error.
Proof. solve_decision. Defined.

(** A Go return pair [(value, err)] in which exactly one side is set. *)
Inductive result (A : Type) :=
| Ok (a : A)
| Err (e : error).
Arguments Ok {A} a.
Arguments Err {A} e.

(** [authorityEndpointCacheEntry].  [Endpoints] is a pointer in the
    source; the only constructor call passes the fresh, non-nil result of
    [CreateAuthorityEndpoints], so the entry holds the record itself. *)
Record authorityEndpointCacheEntry := {
  Endpoints : AuthorityEndpoints;
  ValidForDomainsInList : gmap string bool
}.

Definition createAuthorityEndpointCacheEntry (endpoints : AuthorityEndpoints)
  : authorityEndpointCacheEntry :=
  {| Endpoints := endpoints; ValidForDomainsInList := ∅ |}.

(** The state that outlives a call: the package-level variable
    [endpointCacheEntries] ("package global static"), and the trace of the
    URLs handed to [GetTenantDiscoveryResponse] so far, oldest first. *)
Record World := {
  endpointCacheEntries : gmap string authorityEndpointCacheEntry;
  discoveryRequests : list string
}.

(** The package state at program start: the map literal [{}] and no
    request made. *)
Definition initialWorld : World :=
  {| endpointCacheEntries := ∅; discoveryRequests := [] |}.

(** How a call ends: it returns, or the goroutine panics. *)
Inductive Outcome (A : Type) :=
| Returns (a : A) (w : World)
| Panics (msg : string) (w : World).
Arguments Returns {A} a w.
Arguments Panics {A} msg w.

Definition Go (A : Type) : Type := World → Outcome A.

#[global] Instance Go_ret : MRet Go := λ A a w, Returns a w.

#[global] Instance Go_bind : MBind Go := λ A B k c w,
  match c w with
  | Returns a w' => k a w'
  | Panics msg w' => Panics msg w'
  end.

Definition panic {A} (msg : string) : Go A := λ w, Panics msg w.

Definition readCache : Go (gmap string authorityEndpointCacheEntry) :=
  λ w, Returns (endpointCacheEntries w) w.

Definition writeCache (k : string) (e : authorityEndpointCacheEntry) : Go unit :=
  λ w, Returns tt {| endpointCacheEntries := <[k:=e]> (endpointCacheEntries w);
                     discoveryRequests := discoveryRequests w |}.

(** The state in which a call ended. *)
Definition finalWorld {A} (o : Outcome A) : World :=
  match o with Returns _ w => w | Panics _ w => w end.

(** [l[i]] on a slice, with Go's bounds check. *)
Definition index_slice (l : list string) (i : nat) : Go string :=
  match l !! i with
  | Some x => mret x
  | None => panic "index out of range"
  end.

(** ** Interfaces of the collaborators *)

(** [IWebRequestManager], the Discovery Fetcher.  Its answer may depend on
    the requests it has seen before. *)
Record IWebRequestManager := {
  tenantDiscoveryResponse : list string → string → result TenantDiscoveryResponse
}.

(** The call [wrm.GetTenantDiscoveryResponse(url)]: the URL is appended
    to the trace. *)
Definition GetTenantDiscoveryResponse (wrm : IWebRequestManager) (url : string)
  : Go (result TenantDiscoveryResponse) :=
  λ w, Returns (tenantDiscoveryResponse wrm (discoveryRequests w) url)
               {| endpointCacheEntries := endpointCacheEntries w;
                  discoveryRequests := discoveryRequests w ++ [url] |}.

(** [IOpenIDConfigurationEndpointManager], the value returned by
    [createOpenIDConfigurationEndpointManager]. *)
Record IOpenIDConfigurationEndpointManager := {
  getOpenIDConfigurationEndpoint : AuthorityInfo → string → result string
}.

Record AuthorityEndpointResolutionManager := {
  webRequestManager : IWebRequestManager
}.

Definition CreateAuthorityEndpointResolutionManager
  (webRequestManager : IWebRequestManager) : AuthorityEndpointResolutionManager :=
  {| webRequestManager := webRequestManager |}.

(** ** The resolver *)

Definition getAdfsDomainFromUpn (userPrincipalName : string) : Go string :=
  index_slice (Strings.Split userPrincipalName "@") 1.

(** The domain of a user principal name in the words of section 4.1,
    "substring after the last [@]"; kept apart from
    [getAdfsDomainFromUpn], which is what the code computes. *)
Definition upnDomainAfterLastAt (userPrincipalName : string) : string :=
  default "" (last (Strings.Split userPrincipalName "@")).

Section Resolver.

(** [createOpenIDConfigurationEndpointManager] is defined in another file
    of the package; it is a parameter of the development. *)
Variable createOpenIDConfigurationEndpointManager :
  AuthorityInfo → result IOpenIDConfigurationEndpointManager.

Definition tryGetCachedEndpoints (m : AuthorityEndpointResolutionManager)
    (authorityInfo : AuthorityInfo) (userPrincipalName : string)
  : Go (option AuthorityEndpoints) :=
  cache ← readCache;
  match cache !! CanonicalAuthorityURI authorityInfo with
  | Some cacheEntry =>
      if bool_decide (AuthorityType_of authorityInfo = ADFS) then
        domain ← getAdfsDomainFromUpn userPrincipalName;
        match ValidForDomainsInList cacheEntry !! domain with
        | Some _ => mret (Some (Endpoints cacheEntry))
        | None => mret None
        end
      else mret (Some (Endpoints cacheEntry))
  | None => mret None
  end.

(** [for k := range old { updated[k] = true }] *)
Definition copyDomains (old updated : gmap string bool) : gmap string bool :=
  map_fold (λ k _ acc, <[k:=true]> acc) updated old.

Definition addCachedEndpoints (m : AuthorityEndpointResolutionManager)
    (authorityInfo : AuthorityInfo) (userPrincipalName : string)
    (endpoints : AuthorityEndpoints) : Go unit :=
  let updatedCacheEntry := createAuthorityEndpointCacheEntry endpoints in
  updatedCacheEntry ←
    (if bool_decide (AuthorityType_of authorityInfo = ADFS) then
       cache ← readCache;
       let domains :=
         match cache !! CanonicalAuthorityURI authorityInfo with
         | Some cacheEntry =>
             copyDomains (ValidForDomainsInList cacheEntry)
                         (ValidForDomainsInList updatedCacheEntry)
         | None => ValidForDomainsInList updatedCacheEntry
         end in
       domain ← getAdfsDomainFromUpn userPrincipalName;
       mret {| Endpoints := Endpoints updatedCacheEntry;
               ValidForDomainsInList := <[domain:=true]> domains |}
     else mret updatedCacheEntry);
  writeCache (CanonicalAuthorityURI authorityInfo) updatedCacheEntry.

Definition ResolveEndpoints (m : AuthorityEndpointResolutionManager)
    (authorityInfo : AuthorityInfo) (userPrincipalName : string)
  : Go (result AuthorityEndpoints) :=
  if bool_decide (AuthorityType_of authorityInfo = ADFS)
     && bool_decide (String.length userPrincipalName = 0)
  then mret (Err (errors_New "UPN Required for Authority Validation for ADFS"))
  else
    endpoints ← tryGetCachedEndpoints m authorityInfo userPrincipalName;
    match endpoints with
    | Some endpoints => mret (Ok endpoints)
    | None =>
        match createOpenIDConfigurationEndpointManager authorityInfo with
        | Err err => mret (Err err)
        | Ok endpointManager =>
            match getOpenIDConfigurationEndpoint endpointManager
                    authorityInfo userPrincipalName with
            | Err err => mret (Err err)
            | Ok openIDConfigurationEndpoint =>
                response ← GetTenantDiscoveryResponse (webRequestManager m)
                             openIDConfigurationEndpoint;
                match response with
                | Err err => mret (Err err)
                | Ok tenantDiscoveryResponse =>
                    if negb (HasAuthorizationEndpoint tenantDiscoveryResponse) then
                      mret (Err (errors_New
                        "Authorize endpoint was not found in the openid configuration"))
                    else if negb (HasTokenEndpoint tenantDiscoveryResponse) then
                      mret (Err (errors_New
                        "Token endpoint was not found in the openid configuration"))
                    else if negb (HasIssuer tenantDiscoveryResponse) then
                      mret (Err (errors_New
                        "Issuer was not found in the openid configuration"))
                    else
                      let tenant := Tenant authorityInfo in
                      let endpoints := CreateAuthorityEndpoints
                        (Strings.Replace (AuthorizationEndpoint tenantDiscoveryResponse)
                                         "{tenant}" tenant (-1))
                        (Strings.Replace (TokenEndpoint tenantDiscoveryResponse)
                                         "{tenant}" tenant (-1))
                        (Strings.Replace (Issuer tenantDiscoveryResponse)
                                         "{tenant}" tenant (-1))
                        (Host authorityInfo) in
                      _ ← addCachedEndpoints m authorityInfo userPrincipalName endpoints;
                      mret (Ok endpoints)
                end
            end
        end
    end.

End Resolver.

(** ** Fixtures

    The values the package's test file builds ([tdr], [testAuthorityInfo],
    the URL its mock expects), and an ADFS authority next to them. *)

Module Fixtures.

Definition tdr : TenantDiscoveryResponse :=
  {| AuthorizationEndpoint := "https://login.microsoftonline.com/v2.0/authorize";
     TokenEndpoint := "https://login.microsoftonline.com/v2.0/token";
     Issuer := "https://login.microsoftonline.com/v2.0" |}.

Definition testAuthorityInfo : AuthorityInfo :=
  {| Host := "login.microsoftonline.com"; Tenant := "v2.0";
     AuthorityType_of := MSSTS;
     CanonicalAuthorityURI := "https://login.microsoftonline.com/v2.0/";
     ValidateAuthority := true |}.

Definition adfsAuthorityInfo : AuthorityInfo :=
  {| Host := "fs.contoso.com"; Tenant := "adfs";
     AuthorityType_of := ADFS;
     CanonicalAuthorityURI := "https://fs.contoso.com/adfs/";
     ValidateAuthority := true |}.

(** A document with the [{tenant}] placeholder, as the common endpoint
    of the identity provider serves it. *)
Definition tdrTemplate : TenantDiscoveryResponse :=
  {| AuthorizationEndpoint := "https://login.microsoftonline.com/{tenant}/oauth2/v2.0/authorize";
     TokenEndpoint := "https://login.microsoftonline.com/{tenant}/oauth2/v2.0/token";
     Issuer := "https://login.microsoftonline.com/{tenant}/v2.0" |}.

(** A document without issuer. *)
Definition tdrNoIssuer : TenantDiscoveryResponse :=
  {| AuthorizationEndpoint := "https://login.microsoftonline.com/v2.0/authorize";
     TokenEndpoint := "https://login.microsoftonline.com/v2.0/token";
     Issuer := "" |}.

(** [wrm.On("GetTenantDiscoveryResponse", ...).Return(r, nil)] *)
Definition wrmReturning (r : TenantDiscoveryResponse) : IWebRequestManager :=
  {| tenantDiscoveryResponse := λ _ _, Ok r |}.

Definition wrmFailing : IWebRequestManager :=
  {| tenantDiscoveryResponse := λ _ _, Err (errors_New "This is a mock error") |}.

(** An endpoint manager that answers with the URL the mock of the test
    file is primed with. *)
Definition endpointManager : IOpenIDConfigurationEndpointManager :=
  {| getOpenIDConfigurationEndpoint := λ authorityInfo _,
       Ok (CanonicalAuthorityURI authorityInfo
             +:+ "v2.0/.well-known/openid-configuration") |}.

Definition createEndpointManager (_ : AuthorityInfo)
  : result IOpenIDConfigurationEndpointManager := Ok endpointManager.

(** [testAuthorityEndpoints] of the test file. *)
Definition testAuthorityEndpoints : AuthorityEndpoints :=
  CreateAuthorityEndpoints
    "https://login.microsoftonline.com/v2.0/authorize"
    "https://login.microsoftonline.com/v2.0/token"
    "https://login.microsoftonline.com/v2.0"
    "login.microsoftonline.com".

(** The URL the mock of the test file is primed with. *)
Definition openIDConfigurationURL : string :=
  "https://login.microsoftonline.com/v2.0/v2.0/.well-known/openid-configuration".

(** The state after [testAuthorityInfo] has been resolved once from
    [initialWorld]. *)
Definition resolvedWorld : World :=
  {| endpointCacheEntries :=
       {[ "https://login.microsoftonline.com/v2.0/" :=
            createAuthorityEndpointCacheEntry testAuthorityEndpoints ]};
     discoveryRequests := [openIDConfigurationURL] |}.

(** An authority of a concrete tenant. *)
Definition contosoAuthorityInfo : AuthorityInfo :=
  {| Host := "login.microsoftonline.com"; Tenant := "contoso.onmicrosoft.com";
     AuthorityType_of := MSSTS;
     CanonicalAuthorityURI := "https://login.microsoftonline.com/contoso.onmicrosoft.com/";
     ValidateAuthority := true |}.

Definition contosoEndpoints : AuthorityEndpoints :=
  CreateAuthorityEndpoints
    "https://login.microsoftonline.com/contoso.onmicrosoft.com/oauth2/v2.0/authorize"
    "https://login.microsoftonline.com/contoso.onmicrosoft.com/oauth2/v2.0/token"
    "https://login.microsoftonline.com/contoso.onmicrosoft.com/v2.0"
    "login.microsoftonline.com".

Definition contosoWorld : World :=
  {| endpointCacheEntries :=
       {[ "https://login.microsoftonline.com/contoso.onmicrosoft.com/" :=
            createAuthorityEndpointCacheEntry contosoEndpoints ]};
     discoveryRequests :=
       ["https://login.microsoftonline.com/contoso.onmicrosoft.com/v2.0/.well-known/openid-configuration"] |}.

Definition adfsEndpoints : AuthorityEndpoints :=
  CreateAuthorityEndpoints
    "https://fs.contoso.com/adfs/oauth2/authorize"
    "https://fs.contoso.com/adfs/oauth2/token"
    "https://fs.contoso.com/adfs"
    "fs.contoso.com".

Definition adfsDocument : TenantDiscoveryResponse :=
  {| AuthorizationEndpoint := "https://fs.contoso.com/adfs/oauth2/authorize";
     TokenEndpoint := "https://fs.contoso.com/adfs/oauth2/token";
     Issuer := "https://fs.contoso.com/adfs" |}.

(** An ADFS entry that has been validated for one domain, and a state
    that holds it. *)
Definition adfsEntry (domain : string) : authorityEndpointCacheEntry :=
  {| Endpoints := adfsEndpoints;
     ValidForDomainsInList := {[ domain := true ]} |}.

Definition adfsWorld (domain : string) : World :=
  {| endpointCacheEntries := {[ "https://fs.contoso.com/adfs/" := adfsEntry domain ]};
     discoveryRequests := [] |}.

Definition adfsURL : string :=
  "https://fs.contoso.com/adfs/v2.0/.well-known/openid-configuration".

End Fixtures.

(** ** Tenant overrides (package [public])

    The code that validates a tenant override is not part of the sources
    at hand; its test [TestAcquireTokenWithTenantID] is.  The table of that
    test and the checks of its body are transcribed below; the client under
    test enters through what the test observes of it. *)

Module TenantID.

Definition accessToken : string := "*".
Definition uuid1 : string := "00000000-0000-0000-0000-000000000000".
Definition uuid2 : string := Strings.Replace uuid1 "0" "1" (-1).
Definition lmo : string := "login.microsoftonline.com".
Definition host : string := "https://" +:+ lmo +:+ "/".

(** The anonymous struct of the table; [expectedAuthority] is [""] and
    [expectError] is [false] where the literal leaves them out. *)
Record tenantTest := {
  authority : string;
  expectedAuthority : string;
  tenant : string;
  expectError : bool
}.

Definition tenantTests : list tenantTest := [
  {| authority := host +:+ "common"; tenant := uuid1;
     expectedAuthority := host +:+ uuid1; expectError := false |};
  {| authority := host +:+ "organizations"; tenant := uuid1;
     expectedAuthority := host +:+ uuid1; expectError := false |};
  {| authority := host +:+ uuid1; tenant := uuid2;
     expectedAuthority := host +:+ uuid2; expectError := false |};
  {| authority := host +:+ uuid1; tenant := "common";
     expectedAuthority := ""; expectError := true |};
  {| authority := host +:+ uuid1; tenant := "organizations";
     expectedAuthority := ""; expectError := true |};
  {| authority := host +:+ "consumers"; tenant := uuid1;
     expectedAuthority := ""; expectError := true |}
].

(** The methods of the inner loop. *)
Definition methods : list string :=
  ["authcode"; "authcodeURL"; "devicecode"; "interactive"; "password"].

(** What one subtest observes of the client, in the order of its calls:
    - [newError]: [New(..., WithAuthority(test.authority), ...)] returned an
      error;
    - [silentEmptyError]: the first [AcquireTokenSilent], with
      [WithTenantID(test.tenant)] and an empty cache, returned an error;
    - [acquireError]: the acquisition operation named by the method, with
      [WithTenantID(test.tenant)], returned an error;
    - [authenticationResultError]: [dc.AuthenticationResult] returned an
      error (device code only);
    - [requestURL]: the variable [URL], the created authorization URL or
      the URL of the token request seen by the mock;
    - [acquiredToken]: [ar.AccessToken] after the acquisition;
    - [silentError], [silentToken]: the error and the access token of
      [AcquireTokenSilent] with the acquired account and
      [WithTenantID(test.tenant)];
    - [silentOtherError]: [AcquireTokenSilent] with the acquired account
      and [WithTenantID("not-"+test.tenant)] returned an error. *)
Record Observed := {
  newError : bool;
  silentEmptyError : bool;
  acquireError : bool;
  authenticationResultError : bool;
  requestURL : string;
  acquiredToken : string;
  silentError : bool;
  silentToken : string;
  silentOtherError : bool
}.

(** The body of one subtest: [true] when it runs to its end or returns,
    [false] when it stops at a [t.Fatal]. *)
Definition subtest (method : string) (test : tenantTest) (o : Observed) : bool :=
  if newError o then false
  else if negb (silentEmptyError o) then false
  else if negb (bool_decide (method ∈ methods)) then false
  else if acquireError o then expectError test
  else if expectError test then false
  else if bool_decide (method = "devicecode") && authenticationResultError o
  then false
  else if negb (Strings.HasPrefix (requestURL o) (expectedAuthority test))
  then false
  else if bool_decide (method = "authcodeURL") then true
  else if negb (bool_decide (acquiredToken o = accessToken)) then false
  else if silentError o then false
  else if negb (bool_decide (silentToken o = accessToken)) then false
  else silentOtherError o.

(** The two loops of [TestAcquireTokenWithTenantID], for a client given
    by what each subtest observes of it for a method, an authority and a
    tenant override. *)
Definition TestAcquireTokenWithTenantID
    (client : string → string → string → Observed) : bool :=
  forallb (λ test,
    forallb (λ method,
      subtest method test (client method (authority test) (tenant test)))
      methods)
    tenantTests.

(** A client that passes the test, for the concrete runs: it refuses the
    three aliases as overrides and any override of the [consumers]
    authority, and sends every other request to the override's authority. *)
Definition sampleClient (method authority tenant : string) : Observed :=
  {| newError := false;
     silentEmptyError := true;
     acquireError :=
       bool_decide (tenant ∈ ["common"; "organizations"; "consumers"])
       || bool_decide (authority = host +:+ "consumers");
     authenticationResultError := false;
     requestURL := host +:+ tenant +:+ "/oauth2/v2.0/token";
     acquiredToken := accessToken;
     silentError := false;
     silentToken := accessToken;
     silentOtherError := true |}.

End TenantID.

(** ** Runs of the resolver *)

(** The states a process can be in: the state at program start, and the
    state in which any call of [ResolveEndpoints] ends, whether it returns
    or panics. *)
Inductive Reachable
    (create : AuthorityInfo → result IOpenIDConfigurationEndpointManager)
  : World → Prop :=
| reachable_start : Reachable create initialWorld
| reachable_call w m authorityInfo userPrincipalName :
    Reachable create w →
    Reachable create
      (finalWorld (ResolveEndpoints create m authorityInfo userPrincipalName w)).

(** ** Helpers of the tests of package [public] *)

Module Browser.

(** [url.Values], a [map[string][]string]. *)
Abbreviation Values := (gmap string (list string)).

(** [Values.Get]: the first value of the key, [""] when there is none. *)
Definition Get (v : Values) (key : string) : string :=
  match v !! key with
  | Some (x :: _) => x
  | _ => ""
  end.

(** [Values.Has] *)
Definition Has (v : Values) (key : string) : bool :=
  bool_decide (is_Some (v !! key)).

(** [http.StatusOK] *)
Definition StatusOK : Z := 200.

(** The double quote, for the messages that carry one. *)
Definition quote : string := String "034" "".

(** [fmt]'s [%v] of a [[]string]: the elements between brackets,
    separated by spaces. *)
Definition format_slice (l : list string) : string :=
  "[" +:+ Strings.Join l " " +:+ "]".

Section Fake.

(** [net/url] and the HTTP client are not part of the sources: [url.Parse]
    and [URL.Query] are parameters, and so is [http.DefaultClient.Get],
    which gives the status code of the response and may depend on the
    requests made before. *)
Context {URL : Type}.
Variable url_Parse : string → result URL.
Variable Query : URL → Values.
Variable http_Get : list string → string → result Z.

(** [fakeBrowserOpenURL]; the state is the list of the URLs requested
    with [Get], oldest first; [None] is the [nil] error. *)
Definition fakeBrowserOpenURL (authURL : string) (requested : list string)
  : option error * list string :=
  match url_Parse authURL with
  | Err err => (Some err, requested)
  | Ok u =>
      let q := Query u in
      if bool_decide (Get q "code_challenge" = "") then
        (Some (errors_New "missing query param 'code_challenge"), requested)
      else
        let m := Get q "code_challenge_method" in
        if negb (bool_decide (m = "S256")) then
          (Some (errors_New ("unexpected code_challenge_method '" +:+ m +:+ "'")),
           requested)
        else if bool_decide (Get q "prompt" = "") then
          (Some (errors_New "missing query param 'prompt"), requested)
        else
          let state := Get q "state" in
          if bool_decide (state = "") then
            (Some (errors_New "missing query param 'state'"), requested)
          else
            let redirect := Get q "redirect_uri" in
            if bool_decide (redirect = "") then
              (Some (errors_New "missing query param 'redirect_uri'"), requested)
            else
              let target :=
                redirect +:+ ("/?state=" +:+ state +:+ "&code=fake_auth_code") in
              match http_Get requested target with
              | Err err => (Some err, requested ++ [target])
              | Ok status =>
                  if negb (bool_decide (status = StatusOK)) then
                    (Some (errors_New ("unexpected status code " +:+ pretty status)),
                     requested ++ [target])
                  else (None, requested ++ [target])
              end
  end.

End Fake.

(** The closure [validate] of [TestWithLoginHint].  It captures
    [expectHint], [upn] and the variable [err] of the test function, which
    it may assign: the last argument is the value of [err] at the call, the
    result is the returned error and the value of [err] afterwards. *)
Definition validate (expectHint : bool) (upn : string) (v : Values)
    (err : option error) : option error * option error :=
  if negb (Has v "login_hint") then
    if negb expectHint then (None, err)
    else (Some (errors_New "expected a login hint"), err)
  else if negb expectHint then
    (Some (errors_New "expected no login hint"), err)
  else
    let actual := default [] (v !! "login_hint") in
    let err' :=
      if negb (bool_decide (length actual = 1))
         || negb (bool_decide (actual !! 0 = Some upn))
      then Some (errors_New ("unexpected login_hint " +:+ quote
                               +:+ format_slice actual +:+ quote))
      else err in
    (err', err').

End Browser.

(** ** Further fixtures *)

Module Runs.

Import Fixtures.

(** The state after [alice@x.com] has been resolved for the ADFS
    authority from [initialWorld]. *)
Definition adfsWorldX : World :=
  {| endpointCacheEntries := {[ "https://fs.contoso.com/adfs/" := adfsEntry "x.com" ]};
     discoveryRequests := [adfsURL] |}.

(** The state after [user@dept@contoso.com] has been resolved in
    [adfsWorld "y.com"]. *)
Definition adfsWorldDeptY : World :=
  {| endpointCacheEntries :=
       {[ "https://fs.contoso.com/adfs/" :=
            {| Endpoints := adfsEndpoints;
               ValidForDomainsInList := {[ "dept" := true; "y.com" := true ]} |} ]};
     discoveryRequests := [adfsURL] |}.

(** What the resolver makes of the document [tdr] for the ADFS
    authority. *)
Definition adfsEndpointsFromTdr : AuthorityEndpoints :=
  CreateAuthorityEndpoints
    "https://login.microsoftonline.com/v2.0/authorize"
    "https://login.microsoftonline.com/v2.0/token"
    "https://login.microsoftonline.com/v2.0"
    "fs.contoso.com".

(** The state after [bob@y.com] has then been resolved through a manager
    whose fetcher answers [tdr]. *)
Definition adfsWorldXY : World :=
  {| endpointCacheEntries :=
       {[ "https://fs.contoso.com/adfs/" :=
            {| Endpoints := adfsEndpointsFromTdr;
               ValidForDomainsInList := {[ "y.com" := true; "x.com" := true ]} |} ]};
     discoveryRequests := [adfsURL; adfsURL] |}.

(** The state after [contosoAuthorityInfo] has been resolved in
    [resolvedWorld]. *)
Definition twoAuthoritiesWorld : World :=
  {| endpointCacheEntries :=
       {[ "https://login.microsoftonline.com/contoso.onmicrosoft.com/" :=
            createAuthorityEndpointCacheEntry contosoEndpoints;
          "https://login.microsoftonline.com/v2.0/" :=
            createAuthorityEndpointCacheEntry testAuthorityEndpoints ]};
     discoveryRequests :=
       [openIDConfigurationURL;
        "https://login.microsoftonline.com/contoso.onmicrosoft.com/v2.0/.well-known/openid-configuration"] |}.

(** A parser for the tests of [fakeBrowserOpenURL]: the URL is looked up
    in a table of queries. *)
Definition parseFrom (table : gmap string Browser.Values) (authURL : string)
  : result Browser.Values :=
  match table !! authURL with
  | Some q => Ok q
  | None => Err (errors_New "parse error")
  end.

(** A query without [state]. *)
Definition queryWithoutState : Browser.Values :=
  {[ "code_challenge" := ["challenge"]; "code_challenge_method" := ["S256"];
     "prompt" := ["select_account"]; "redirect_uri" := ["http://localhost:1234"] ]}.

End Runs.

(** * Properties *)

(** ** Go's [strings] package on examples *)

Example Split_one : Strings.Split "user@contoso.com" "@" = ["user"; "contoso.com"].
Proof. reflexivity. Qed.

Example Split_none : Strings.Split "user" "@" = ["user"].
Proof. reflexivity. Qed.

Example Split_two : Strings.Split "a@b@c" "@" = ["a"; "b"; "c"].
Proof. reflexivity. Qed.

Example Replace_tenant :
  Strings.Replace "https://h/{tenant}/x/{tenant}" "{tenant}" "t1" (-1)
  = "https://h/t1/x/t1".
Proof. reflexivity. Qed.

Example Replace_empty_old : Strings.Replace "ab" "" "-" (-1) = "-a-b-".
Proof. reflexivity. Qed.

(** ** Occurrences of a substring *)

Section StringFacts.

Implicit Types s p a b sub : string.

Lemma app_String c s1 s2 : String c s1 +:+ s2 = String c (s1 +:+ s2).
Proof. reflexivity. Qed.

Lemma app_empty_l s : "" +:+ s = s.
Proof. reflexivity. Qed.

Lemma app_empty_r s : s +:+ "" = s.
Proof. induction s as [|c s IH]; [done|]. by rewrite app_String, IH. Qed.

Lemma app_assoc_s s1 s2 s3 : (s1 +:+ s2) +:+ s3 = s1 +:+ (s2 +:+ s3).
Proof. induction s1 as [|c s1 IH]; [done|]. by rewrite !app_String, IH. Qed.

Lemma length_app_s s1 s2 :
  String.length (s1 +:+ s2) = String.length s1 + String.length s2.
Proof. induction s1 as [|c s1 IH]; [done|]. rewrite app_String. simpl. by rewrite IH. Qed.

Lemma slice_to_app a b : Strings.slice_to (String.length a) (a +:+ b) = a.
Proof. induction a as [|c a IH]; [by destruct b|]. rewrite app_String. simpl. by rewrite IH. Qed.

Lemma slice_from_app a b : Strings.slice_from (String.length a) (a +:+ b) = b.
Proof. induction a as [|c a IH]; [by destruct b|]. by rewrite app_String. Qed.

Lemma slice_from_add n k s :
  Strings.slice_from (n + k) s = Strings.slice_from k (Strings.slice_from n s).
Proof.
  revert s. induction n as [|n IH]; intros s; [by destruct s|].
  destruct s as [|c s]; [by destruct k|]. apply IH.
Qed.

Lemma slice_to_from n s : Strings.slice_to n s +:+ Strings.slice_from n s = s.
Proof.
  revert s. induction n as [|n IH]; intros [|c s]; try done.
  simpl. by rewrite app_String, IH.
Qed.

Lemma length_slice_to n s :
  n ≤ String.length s → String.length (Strings.slice_to n s) = n.
Proof.
  revert s. induction n as [|n IH]; intros [|c s] Hn; simpl in *; try done; try lia.
  rewrite IH; lia.
Qed.

Lemma length_slice_from n s :
  String.length (Strings.slice_from n s) = String.length s - n.
Proof. revert s. induction n as [|n IH]; intros [|c s]; simpl; try done. Qed.

(** [HasPrefix] decides "[s] starts with [p]". *)
Lemma HasPrefix_true s p : Strings.HasPrefix s p = true ↔ ∃ r, s = p +:+ r.
Proof.
  revert s. induction p as [|c p IH]; intros s; simpl.
  - split; [by exists s|done].
  - destruct s as [|d s].
    + split; [done|]. intros [r Hr]. by rewrite app_String in Hr.
    + case_decide as Hcd.
      * subst d. rewrite IH. split; intros [r Hr]; exists r.
        -- by rewrite app_String, Hr.
        -- rewrite app_String in Hr. by simplify_eq.
      * split; [done|]. intros [r Hr]. rewrite app_String in Hr. by simplify_eq.
Qed.

Lemma HasPrefix_app p r : Strings.HasPrefix (p +:+ r) p = true.
Proof. apply HasPrefix_true. eauto. Qed.

(** A successful [Index] cuts [s] at an occurrence of [sub]. *)
Lemma Index_Some_split s sub i :
  Strings.Index s sub = Some i →
  s = Strings.slice_to i s +:+ sub +:+ Strings.slice_from (i + String.length sub) s
  ∧ i + String.length sub ≤ String.length s.
Proof.
  revert i. induction s as [|c s IH]; intros i; simpl.
  - destruct (Strings.HasPrefix "" sub) eqn:Hp; [|done].
    intros [= <-]. apply HasPrefix_true in Hp as [r Hr].
    destruct sub; [done|by rewrite app_String in Hr].
  - destruct (Strings.HasPrefix (String c s) sub) eqn:Hp.
    + intros [= <-]. apply HasPrefix_true in Hp as [r Hr].
      change (S (String.length s)) with (String.length (String c s)).
      rewrite Hr. simpl (0 + _). rewrite slice_from_app, length_app_s.
      split; [done|lia].
    + destruct (Strings.Index s sub) as [j|] eqn:Hj; [|done].
      intros [= <-]. destruct (IH j eq_refl) as [Hs Hlen].
      simpl. rewrite app_String. split; [by rewrite <-Hs|lia].
Qed.

(** ... and at the leftmost one. *)
Lemma Index_Some_least s sub i a b :
  Strings.Index s sub = Some i → s = a +:+ sub +:+ b → i ≤ String.length a.
Proof.
  revert i a. induction s as [|c s IH]; intros i a; simpl.
  - destruct (Strings.HasPrefix "" sub); [|done]. intros [= <-]. lia.
  - destruct (Strings.HasPrefix (String c s) sub) eqn:Hp; [intros [= <-]; lia|].
    destruct (Strings.Index s sub) as [j|] eqn:Hj; [|done].
    intros [= <-] Hs. destruct a as [|d a].
    + rewrite app_empty_l in Hs. rewrite Hs, HasPrefix_app in Hp. done.
    + rewrite app_String in Hs. simplify_eq. simpl.
      specialize (IH j a eq_refl eq_refl). lia.
Qed.

(** A failed [Index] means that [sub] occurs nowhere in [s]. *)
Lemma Index_None s sub a b : Strings.Index s sub = None → s ≠ a +:+ sub +:+ b.
Proof.
  revert a. induction s as [|c s IH]; intros a; simpl.
  - destruct (Strings.HasPrefix "" sub) eqn:Hp; [done|]. intros _ Hs.
    destruct a; [|by rewrite app_String in Hs].
    rewrite app_empty_l in Hs. rewrite Hs, HasPrefix_app in Hp. done.
  - destruct (Strings.HasPrefix (String c s) sub) eqn:Hp; [done|].
    destruct (Strings.Index s sub) as [j|] eqn:Hj; [done|].
    intros _ Hs. destruct a as [|d a].
    + rewrite app_empty_l in Hs. rewrite Hs, HasPrefix_app in Hp. done.
    + rewrite app_String in Hs. simplify_eq. by eapply IH.
Qed.

Lemma Index_is_Some s sub :
  is_Some (Strings.Index s sub) ↔ ∃ a b, s = a +:+ sub +:+ b.
Proof.
  split.
  - intros [i Hi]. apply Index_Some_split in Hi as [Hs _]. eauto.
  - intros (a & b & Hs). destruct (Strings.Index s sub) eqn:Hi; [eauto|].
    by eapply Index_None in Hi.
Qed.

Lemma Index_empty s sub : sub ≠ "" → Strings.Index "" sub = None.
Proof. by destruct sub. Qed.

Lemma Contains_true s sub :
  Strings.Contains s sub = true ↔ ∃ a b, s = a +:+ sub +:+ b.
Proof.
  rewrite <-Index_is_Some. unfold Strings.Contains.
  destruct (Strings.Index s sub); split; try done; eauto.
Qed.

Lemma Contains_false s sub :
  Strings.Contains s sub = false ↔ Strings.Index s sub = None.
Proof. unfold Strings.Contains. by destruct (Strings.Index s sub). Qed.

(** The text left after a cut is strictly shorter. *)
Lemma Index_rest_shorter s sub i :
  sub ≠ "" → Strings.Index s sub = Some i →
  String.length (Strings.slice_from (i + String.length sub) s) < String.length s.
Proof.
  intros Hsub Hi. apply Index_Some_split in Hi as [_ Hlen].
  rewrite length_slice_from. destruct sub; [done|]. simpl in *. lia.
Qed.

(** [Count_loop] does not depend on its fuel once the fuel covers the
    length of the text: the loop of [strings.Count] always ends. *)
Lemma Count_loop_fuel sub fuel1 fuel2 s :
  sub ≠ "" → String.length s ≤ fuel1 → String.length s ≤ fuel2 →
  Strings.Count_loop fuel1 s sub = Strings.Count_loop fuel2 s sub.
Proof.
  intros Hsub. revert fuel2 s.
  induction fuel1 as [|fuel1 IH]; intros [|fuel2] s H1 H2; simpl; try done.
  - destruct s; [|simpl in *; lia]. by rewrite Index_empty.
  - destruct s; [|simpl in *; lia]. by rewrite Index_empty.
  - destruct (Strings.Index s sub) as [i|] eqn:Hi; [|done].
    pose proof (Index_rest_shorter _ _ _ Hsub Hi). f_equal. apply IH; lia.
Qed.

Lemma Count_unfold s sub :
  sub ≠ "" →
  Strings.Count s sub =
    match Strings.Index s sub with
    | None => 0
    | Some i => S (Strings.Count (Strings.slice_from (i + String.length sub) s) sub)
    end.
Proof.
  intros Hsub. unfold Strings.Count. destruct sub as [|c sub]; [done|].
  destruct (Strings.Index s _) as [i|] eqn:Hi.
  - pose proof (Index_rest_shorter _ _ _ Hsub Hi) as Hlt.
    destruct (String.length s) as [|n] eqn:Hn; [lia|].
    simpl Strings.Count_loop. rewrite Hi. f_equal.
    simpl in Hlt. apply Count_loop_fuel; [done|lia|done].
  - destruct (String.length s); simpl; [done|by rewrite Hi].
Qed.

(** [Split] cuts at the leftmost separator and goes on with the rest. *)
Lemma Split_unfold s sep :
  sep ≠ "" →
  Strings.Split s sep =
    match Strings.Index s sep with
    | None => [s]
    | Some m =>
        Strings.slice_to m s
          :: Strings.Split (Strings.slice_from (m + String.length sep) s) sep
    end.
Proof.
  intros Hsep. unfold Strings.Split. rewrite (Count_unfold s) by done.
  destruct sep as [|c sep]; [done|].
  destruct (Strings.Index s _) as [i|] eqn:Hi; simpl; by rewrite ?Hi.
Qed.

Lemma Replace_loop_Count s old new :
  old ≠ "" → old ≠ new →
  Strings.Replace s old new (-1) = Strings.Replace_loop (Strings.Count s old) s old new.
Proof.
  intros Hold Hne. unfold Strings.Replace.
  rewrite bool_decide_eq_false_2 by done. simpl.
  case_bool_decide as Hm; [by rewrite Hm|].
  by destruct old.
Qed.

(** [Replace] with no limit rewrites the leftmost occurrence and goes on
    with the rest. *)
Lemma Replace_unfold s old new :
  old ≠ "" →
  Strings.Replace s old new (-1) =
    match Strings.Index s old with
    | None => s
    | Some j =>
        Strings.slice_to j s +:+ new
          +:+ Strings.Replace (Strings.slice_from (j + String.length old) s) old new (-1)
    end.
Proof.
  intros Hold. destruct (decide (old = new)) as [<-|Hne].
  - unfold Strings.Replace at 1. rewrite bool_decide_eq_true_2 by done. simpl.
    destruct (Strings.Index s old) as [j|] eqn:Hj; [|done].
    unfold Strings.Replace. rewrite bool_decide_eq_true_2 by done. simpl.
    by apply Index_Some_split in Hj as [<- _].
  - rewrite Replace_loop_Count by done. rewrite (Count_unfold s) by done.
    destruct (Strings.Index s old) as [j|] eqn:Hj; simpl; [|done].
    by rewrite Hj, Replace_loop_Count.
Qed.

Lemma app_eq_length_inv a a' x x' :
  a +:+ x = a' +:+ x' → String.length a = String.length a' → a = a' ∧ x = x'.
Proof.
  revert a'. induction a as [|c a IH]; intros [|c' a'] Heq Hlen; simpl in *; try done.
  rewrite !app_String in Heq. simplify_eq.
  destruct (IH a') as [-> ->]; [done|lia|done].
Qed.

(** [Replace] rewrites every occurrence in the sense of
    [ReplacedEvery]... *)
Lemma Replace_ReplacedEvery old new s :
  old ≠ "" → ReplacedEvery old new s (Strings.Replace s old new (-1)).
Proof.
  intros Hold. remember (String.length s) as n eqn:Hn.
  revert s Hn. induction (lt_wf n) as [n _ IH]; intros s ->.
  rewrite Replace_unfold by done.
  destruct (Strings.Index s old) as [j|] eqn:Hj.
  - pose proof (Index_rest_shorter _ _ _ Hold Hj) as Hlt.
    destruct (Index_Some_split _ _ _ Hj) as [Hs Hlen].
    rewrite Hs at 1. apply replaced_first.
    + intros a' b' Heq. rewrite <-Hs in Heq.
      pose proof (Index_Some_least _ _ _ _ _ Hj Heq).
      rewrite length_slice_to; lia.
    + by eapply IH.
  - apply replaced_none. intros a b. by apply Index_None.
Qed.

(** ... and [ReplacedEvery] leaves no choice about the result. *)
Lemma ReplacedEvery_functional old new s r1 r2 :
  ReplacedEvery old new s r1 → ReplacedEvery old new s r2 → r1 = r2.
Proof.
  intros H1. revert r2. induction H1 as [s Hnone|a b r Hleast H1 IH]; intros r2 H2.
  - inversion H2 as [|a' b' r' Hleast' H' Heq]; subst; [done|].
    by destruct (Hnone a' b').
  - inversion H2 as [s Hnone Hs|a' b' r' Hleast' H2' Hs]; subst.
    + by destruct (Hnone a b).
    + pose proof (Hleast _ _ (eq_sym Hs)). pose proof (Hleast' _ _ Hs).
      apply app_eq_length_inv in Hs as [-> Hs]; [|lia].
      apply (inj _) in Hs as ->. by rewrite (IH _ H2').
Qed.

(** With a one-byte separator, the first cut is where the separator is
    first written. *)
Lemma Index_byte_app a c x :
  Strings.Index a (String c "") = None →
  Strings.Index (a +:+ String c x) (String c "") = Some (String.length a).
Proof.
  induction a as [|d a IH].
  - intros _. rewrite app_empty_l. simpl. by rewrite decide_True.
  - rewrite app_String. simpl. case_decide; [done|].
    destruct (Strings.Index a _); [done|]. intros _. by rewrite IH.
Qed.

(** Two ways of cutting the same text. *)
Lemma app_eq_app_le p x a y :
  p +:+ x = a +:+ y → String.length p ≤ String.length a →
  ∃ q, a = p +:+ q ∧ x = q +:+ y.
Proof.
  revert a. induction p as [|c p IH]; intros a Heq Hlen.
  - exists a. by rewrite !app_empty_l in *.
  - destruct a as [|d a]; [simpl in Hlen; lia|].
    rewrite !app_String in Heq. simplify_eq.
    destruct (IH a) as (q & -> & ->); [done|simpl in Hlen; lia|].
    exists q. by rewrite app_String.
Qed.

(** The placeholder has no border: two occurrences of [{tenant}] never
    overlap, because it starts with the only brace it opens. *)
Lemma tenant_no_overlap q rest b :
  "{tenant}" +:+ rest = q +:+ "{tenant}" +:+ b →
  q = "" ∨ 8 ≤ String.length q.
Proof.
  intros Heq.
  change ("{tenant}" +:+ rest)
    with (String "{" (String "t" (String "e" (String "n"
            (String "a" (String "n" (String "t" (String "}" rest)))))))) in Heq.
  change ("{tenant}" +:+ b)
    with (String "{" (String "t" (String "e" (String "n"
            (String "a" (String "n" (String "t" (String "}" b)))))))) in Heq.
  do 8 (destruct q as [|? q];
        [first [by left|discriminate Heq]
        |rewrite app_String in Heq; injection Heq as _ Heq]).
  right. simpl. lia.
Qed.

(** Hence [Replace] rewrites the placeholder wherever it stands, not only
    where a scan from the left would look for it. *)
Lemma Replace_tenant_occurrence new a b :
  Strings.Replace (a +:+ "{tenant}" +:+ b) "{tenant}" new (-1)
  = Strings.Replace a "{tenant}" new (-1) +:+ new
      +:+ Strings.Replace b "{tenant}" new (-1).
Proof.
  remember (String.length a) as n eqn:Hn. revert a b Hn.
  induction (lt_wf n) as [n _ IH]; intros a b ->.
  remember "{tenant}" as old eqn:Hold.
  assert (old ≠ "") as Hne by (by subst old).
  remember (a +:+ old +:+ b) as s eqn:Hsdef.
  destruct (Strings.Index s old) as [j|] eqn:Hj;
    [|by destruct (Index_None _ _ a b Hj)].
  destruct (Index_Some_split _ _ _ Hj) as [Hs Hlen].
  pose proof (Index_Some_least _ _ _ a b Hj Hsdef) as Hleast.
  rewrite (Replace_unfold s) by done. rewrite Hj.
  assert (String.length (Strings.slice_to j s) = j) as Hp
    by (apply length_slice_to; lia).
  remember (Strings.slice_to j s) as p eqn:Hpdef.
  remember (Strings.slice_from (j + String.length old) s) as rest eqn:Hrestdef.
  destruct (app_eq_app_le p (old +:+ rest) a (old +:+ b)) as (q & Ha & Hq);
    [by rewrite <-Hs, <-Hsdef|lia|].
  assert (q = "" ∨ 8 ≤ String.length q) as [->|Hlong].
  { subst old. by eapply tenant_no_overlap. }
  - rewrite app_empty_r in Ha. rewrite app_empty_l in Hq.
    apply (inj _) in Hq as ->. subst a.
    rewrite (Replace_unfold p) by done.
    destruct (Strings.Index p old) as [i|] eqn:Hi; [|done].
    destruct (Index_Some_split _ _ _ Hi) as [Hpi Hleni].
    exfalso. assert (j ≤ i); [|subst old; simpl in *; lia].
    pose proof (Index_Some_least s old j (Strings.slice_to i p)
                  (Strings.slice_from (i + String.length old) p +:+ old +:+ b)
                  Hj) as Hji.
    rewrite length_slice_to in Hji by lia. apply Hji.
    rewrite Hsdef. rewrite Hpi at 1. by rewrite !app_assoc_s.
  - destruct (app_eq_app_le old rest q (old +:+ b)) as (q' & Hq' & Hrest);
      [done|subst old; simpl; lia|].
    subst q.
    assert (Strings.Index a old = Some j) as Hja.
    { destruct (Strings.Index a old) as [i|] eqn:Hi;
        [|by destruct (Index_None _ _ p q' Hi)].
      pose proof (Index_Some_least _ _ _ p q' Hi Ha) as Hle.
      destruct (Index_Some_split _ _ _ Hi) as [Hai Hleni].
      f_equal. assert (j ≤ i); [|lia].
      pose proof (Index_Some_least s old j (Strings.slice_to i a)
                    (Strings.slice_from (i + String.length old) a +:+ old +:+ b)
                    Hj) as Hji.
      rewrite length_slice_to in Hji by lia. apply Hji.
      rewrite Hsdef. rewrite Hai at 1. by rewrite !app_assoc_s. }
    rewrite (Replace_unfold a) by done. rewrite Hja.
    assert (Strings.slice_to j a = p) as ->.
    { rewrite Ha, <-Hp. apply slice_to_app. }
    assert (Strings.slice_from (j + String.length old) a = q') as ->.
    { rewrite Ha, slice_from_add, <-Hp, slice_from_app. apply slice_from_app. }
    rewrite Hrest.
    rewrite (IH (String.length q')) with (a := q') (b := b); [|..|done].
    + by rewrite !app_assoc_s.
    + rewrite Ha, !length_app_s. subst old. simpl. lia.
Qed.

End StringFacts.

(** ** The resolver *)

Section ResolverFacts.

Context (create : AuthorityInfo → result IOpenIDConfigurationEndpointManager).

Implicit Types (m : AuthorityEndpointResolutionManager) (w : World).
Implicit Types (authorityInfo : AuthorityInfo) (upn : string).

(** Unfolds the monadic plumbing. *)
Ltac go_unfold :=
  unfold readCache, writeCache, GetTenantDiscoveryResponse, index_slice in *;
  unfold mbind, mret, Go_bind, Go_ret, panic in *.

Lemma getAdfsDomainFromUpn_Some upn d w :
  Strings.Split upn "@" !! 1 = Some d →
  getAdfsDomainFromUpn upn w = Returns d w.
Proof. intros Hd. unfold getAdfsDomainFromUpn. go_unfold. by rewrite Hd. Qed.

Lemma getAdfsDomainFromUpn_None upn w :
  Strings.Split upn "@" !! 1 = None →
  getAdfsDomainFromUpn upn w = Panics "index out of range" w.
Proof. intros Hd. unfold getAdfsDomainFromUpn. go_unfold. by rewrite Hd. Qed.

(** The second element of the split exists exactly when the name has
    an [@]. *)
Lemma Split_at_second upn :
  is_Some (Strings.Split upn "@" !! 1) ↔ Strings.Contains upn "@" = true.
Proof.
  rewrite Split_unfold by done. unfold Strings.Contains.
  destruct (Strings.Index upn "@") as [i|]; simpl.
  - rewrite Split_unfold by done. split; [done|]. intros _.
    destruct (Strings.Index _ "@"); simpl; eauto.
  - split; [by intros [??]|done].
Qed.

(** The domain read by [getAdfsDomainFromUpn]: the text between the
    first [@] and the next one, or the end of the name. *)
Lemma Split_at_domain a d rest :
  Strings.Contains a "@" = false →
  Strings.Contains d "@" = false →
  rest = "" ∨ Strings.HasPrefix rest "@" = true →
  Strings.Split (a +:+ "@" +:+ d +:+ rest) "@" !! 1 = Some d.
Proof.
  intros Ha%Contains_false Hd%Contains_false Hrest.
  change ("@" +:+ d +:+ rest) with (String "@" (d +:+ rest)).
  rewrite Split_unfold by done. rewrite Index_byte_app by done.
  rewrite slice_from_add, slice_from_app.
  change (Strings.slice_from (String.length "@") (String "@" (d +:+ rest)))
    with (d +:+ rest).
  rewrite Split_unfold by done. destruct Hrest as [->|Hrest].
  - by rewrite app_empty_r, Hd.
  - apply HasPrefix_true in Hrest as [r ->].
    change ("@" +:+ r) with (String "@" r).
    rewrite Index_byte_app by done. simpl. by rewrite slice_to_app.
Qed.

(** With exactly one [@] the two readings of "domain" agree: the code's
    second component is the text after the last [@]. *)
Lemma upnDomain_single_at a d w :
  Strings.Contains a "@" = false →
  Strings.Contains d "@" = false →
  getAdfsDomainFromUpn (a +:+ "@" +:+ d) w = Returns d w
  ∧ upnDomainAfterLastAt (a +:+ "@" +:+ d) = d.
Proof.
  intros Ha Hd. split.
  - apply getAdfsDomainFromUpn_Some.
    rewrite <-(app_empty_r d) at 1. apply Split_at_domain; auto.
  - apply Contains_false in Ha, Hd. unfold upnDomainAfterLastAt.
    change ("@" +:+ d) with (String "@" d).
    rewrite Split_unfold by done. rewrite Index_byte_app by done.
    rewrite slice_from_add, slice_from_app.
    change (Strings.slice_from (String.length "@") (String "@" d)) with d.
    rewrite Split_unfold by done. by rewrite Hd.
Qed.

(** [tryGetCachedEndpoints] only reads. *)
Lemma tryGetCachedEndpoints_world m authorityInfo upn w :
  finalWorld (tryGetCachedEndpoints m authorityInfo upn w) = w.
Proof.
  unfold tryGetCachedEndpoints, getAdfsDomainFromUpn. go_unfold.
  repeat case_match; simplify_eq/=; done.
Qed.

Lemma tryGetCachedEndpoints_absent m authorityInfo upn w :
  endpointCacheEntries w !! CanonicalAuthorityURI authorityInfo = None →
  tryGetCachedEndpoints m authorityInfo upn w = Returns None w.
Proof. intros H. unfold tryGetCachedEndpoints. go_unfold. by rewrite H. Qed.

Lemma tryGetCachedEndpoints_standard m authorityInfo upn w entry :
  AuthorityType_of authorityInfo ≠ ADFS →
  endpointCacheEntries w !! CanonicalAuthorityURI authorityInfo = Some entry →
  tryGetCachedEndpoints m authorityInfo upn w = Returns (Some (Endpoints entry)) w.
Proof.
  intros Hty H. unfold tryGetCachedEndpoints. go_unfold.
  by rewrite H, bool_decide_eq_false_2.
Qed.

Lemma tryGetCachedEndpoints_adfs m authorityInfo upn w entry d :
  AuthorityType_of authorityInfo = ADFS →
  endpointCacheEntries w !! CanonicalAuthorityURI authorityInfo = Some entry →
  Strings.Split upn "@" !! 1 = Some d →
  tryGetCachedEndpoints m authorityInfo upn w =
    Returns (match ValidForDomainsInList entry !! d with
             | Some _ => Some (Endpoints entry)
             | None => None
             end) w.
Proof.
  intros Hty H Hd. unfold tryGetCachedEndpoints. go_unfold.
  rewrite H, bool_decide_eq_true_2 by done.
  rewrite (getAdfsDomainFromUpn_Some _ d) by done.
  by destruct (ValidForDomainsInList entry !! d).
Qed.

Lemma tryGetCachedEndpoints_adfs_panic m authorityInfo upn w entry :
  AuthorityType_of authorityInfo = ADFS →
  endpointCacheEntries w !! CanonicalAuthorityURI authorityInfo = Some entry →
  Strings.Split upn "@" !! 1 = None →
  tryGetCachedEndpoints m authorityInfo upn w = Panics "index out of range" w.
Proof.
  intros Hty H Hd. unfold tryGetCachedEndpoints. go_unfold.
  rewrite H, bool_decide_eq_true_2 by done.
  by rewrite getAdfsDomainFromUpn_None.
Qed.

(** The copy loop of [addCachedEndpoints] adds every old key. *)
Lemma copyDomains_lookup (old updated : gmap string bool) k :
  copyDomains old updated !! k
  = match old !! k with Some _ => Some true | None => updated !! k end.
Proof.
  unfold copyDomains.
  apply (map_fold_weak_ind (λ r (o : gmap string bool),
           r !! k = match o !! k with Some _ => Some true | None => updated !! k end)).
  - by rewrite lookup_empty.
  - intros i x o r Hi IH. destruct (decide (i = k)) as [->|Hne].
    + by rewrite !lookup_insert_eq.
    + by rewrite !lookup_insert_ne.
Qed.

Lemma copyDomains_dom (old updated : gmap string bool) :
  dom (copyDomains old updated) = dom old ∪ dom updated.
Proof.
  apply set_eq. intros k. rewrite elem_of_union, !elem_of_dom, copyDomains_lookup.
  destruct (old !! k) as [b|].
  - split; [intros _; left|]; eauto.
  - split; [by right|]. by intros [[??]|?].
Qed.

(** [addCachedEndpoints] changes the cache and nothing else. *)
Lemma addCachedEndpoints_trace m authorityInfo upn endpoints w :
  discoveryRequests (finalWorld (addCachedEndpoints m authorityInfo upn endpoints w))
  = discoveryRequests w.
Proof.
  unfold addCachedEndpoints, getAdfsDomainFromUpn. go_unfold.
  destruct (bool_decide _); [|done].
  by destruct (Strings.Split upn "@" !! 1).
Qed.

Lemma addCachedEndpoints_standard m authorityInfo upn endpoints w :
  AuthorityType_of authorityInfo ≠ ADFS →
  addCachedEndpoints m authorityInfo upn endpoints w =
    Returns tt {| endpointCacheEntries :=
                    <[CanonicalAuthorityURI authorityInfo :=
                        createAuthorityEndpointCacheEntry endpoints]>
                      (endpointCacheEntries w);
                  discoveryRequests := discoveryRequests w |}.
Proof.
  intros Hty. unfold addCachedEndpoints. go_unfold.
  by rewrite bool_decide_eq_false_2.
Qed.

Lemma addCachedEndpoints_adfs m authorityInfo upn endpoints w d :
  AuthorityType_of authorityInfo = ADFS →
  Strings.Split upn "@" !! 1 = Some d →
  addCachedEndpoints m authorityInfo upn endpoints w =
    Returns tt
      {| endpointCacheEntries :=
           <[CanonicalAuthorityURI authorityInfo :=
               {| Endpoints := endpoints;
                  ValidForDomainsInList :=
                    <[d:=true]>
                      (match endpointCacheEntries w
                               !! CanonicalAuthorityURI authorityInfo with
                       | Some cacheEntry =>
                           copyDomains (ValidForDomainsInList cacheEntry) ∅
                       | None => ∅
                       end) |}]>
             (endpointCacheEntries w);
         discoveryRequests := discoveryRequests w |}.
Proof.
  intros Hty Hd. unfold addCachedEndpoints. go_unfold.
  rewrite bool_decide_eq_true_2 by done.
  rewrite (getAdfsDomainFromUpn_Some _ d) by done. done.
Qed.

(** A panic in [addCachedEndpoints] comes before the assignment to the
    map. *)
Lemma addCachedEndpoints_adfs_panic m authorityInfo upn endpoints w :
  AuthorityType_of authorityInfo = ADFS →
  Strings.Split upn "@" !! 1 = None →
  addCachedEndpoints m authorityInfo upn endpoints w = Panics "index out of range" w.
Proof.
  intros Hty Hd. unfold addCachedEndpoints. go_unfold.
  rewrite bool_decide_eq_true_2 by done.
  by rewrite getAdfsDomainFromUpn_None.
Qed.

(** The state in which the cache check of [ResolveEndpoints] ends. *)
Lemma tryGetCachedEndpoints_Returns m authorityInfo upn w r w' :
  tryGetCachedEndpoints m authorityInfo upn w = Returns r w' → w' = w.
Proof.
  intros H. pose proof (tryGetCachedEndpoints_world m authorityInfo upn w) as Hw.
  by rewrite H in Hw.
Qed.

Lemma tryGetCachedEndpoints_Panics m authorityInfo upn w msg w' :
  tryGetCachedEndpoints m authorityInfo upn w = Panics msg w' → w' = w.
Proof.
  intros H. pose proof (tryGetCachedEndpoints_world m authorityInfo upn w) as Hw.
  by rewrite H in Hw.
Qed.

(** C10: whenever [ResolveEndpoints] returns an error, whichever of its
    checks produced it, the map [endpointCacheEntries] is the one the call
    started with. *)
Theorem ResolveEndpoints_error_keeps_cache m authorityInfo upn w err w' :
  ResolveEndpoints create m authorityInfo upn w = Returns (Err err) w' →
  endpointCacheEntries w' = endpointCacheEntries w.
Proof.
  unfold ResolveEndpoints. go_unfold.
  destruct (_ && _); [by intros [= _ <-]|].
  destruct (tryGetCachedEndpoints _ _ _ _) as [[e|] w0|msg w0] eqn:Htry; [done| |done].
  apply tryGetCachedEndpoints_Returns in Htry as ->.
  destruct (create authorityInfo) as [em|e1]; [|by intros [= _ <-]].
  destruct (getOpenIDConfigurationEndpoint _ _ _) as [url|e2]; [|by intros [= _ <-]].
  destruct (tenantDiscoveryResponse _ _ _) as [doc|e3]; [|by intros [= _ <-]].
  destruct (negb (HasAuthorizationEndpoint doc)); [by intros [= _ <-]|].
  destruct (negb (HasTokenEndpoint doc)); [by intros [= _ <-]|].
  destruct (negb (HasIssuer doc)); [by intros [= _ <-]|].
  by destruct (addCachedEndpoints _ _ _ _ _).
Qed.

(** A panic leaves the map alone as well: the only assignment to it is
    the last statement of [addCachedEndpoints]. *)
Lemma ResolveEndpoints_panic_keeps_cache m authorityInfo upn w msg w' :
  ResolveEndpoints create m authorityInfo upn w = Panics msg w' →
  endpointCacheEntries w' = endpointCacheEntries w.
Proof.
  unfold ResolveEndpoints. go_unfold.
  destruct (_ && _); [done|].
  destruct (tryGetCachedEndpoints _ _ _ _) as [[e|] w0|msg0 w0] eqn:Htry; [done| |].
  - apply tryGetCachedEndpoints_Returns in Htry as ->.
    destruct (create authorityInfo) as [em|e1]; [|done].
    destruct (getOpenIDConfigurationEndpoint _ _ _) as [url|e2]; [|done].
    destruct (tenantDiscoveryResponse _ _ _) as [doc|e3]; [|done].
    destruct (negb (HasAuthorizationEndpoint doc)); [done|].
    destruct (negb (HasTokenEndpoint doc)); [done|].
    destruct (negb (HasIssuer doc)); [done|].
    unfold addCachedEndpoints, getAdfsDomainFromUpn. go_unfold.
    destruct (bool_decide _); [|done].
    destruct (Strings.Split upn "@" !! 1); [done|]. by intros [= _ <-].
  - apply tryGetCachedEndpoints_Panics in Htry as ->. by intros [= _ <-].
Qed.

(** C3: for an ADFS authority and an empty user principal name the
    call returns the error "UPN Required for Authority Validation for
    ADFS" whatever the cache holds and whatever the manager's Discovery
    Fetcher would answer, and the state, cache and request trace, is the one
    it started with: neither was touched. *)
Theorem ResolveEndpoints_ADFS_requires_upn m authorityInfo w :
  AuthorityType_of authorityInfo = ADFS →
  ResolveEndpoints create m authorityInfo "" w
  = Returns (Err (errors_New "UPN Required for Authority Validation for ADFS")) w.
Proof.
  intros Hty. unfold ResolveEndpoints.
  by rewrite bool_decide_eq_true_2.
Qed.

(** The first check of [ResolveEndpoints] lets the call through. *)
Lemma upn_check_passes authorityInfo upn :
  (AuthorityType_of authorityInfo = ADFS → upn ≠ "") →
  bool_decide (AuthorityType_of authorityInfo = ADFS)
    && bool_decide (String.length upn = 0) = false.
Proof.
  intros H. case_bool_decide as Hty; [|done]. simpl.
  apply bool_decide_eq_false_2. specialize (H Hty). by destruct upn.
Qed.

(** C4: on a cache miss, when the Discovery Fetcher has returned a
    document in which the authorization endpoint, the token endpoint or the
    issuer is empty, [ResolveEndpoints] returns one of its three "... was
    not found in the openid configuration" errors and no endpoints; the
    request has been made, the cache is unchanged. *)
Theorem ResolveEndpoints_incomplete_document
    m authorityInfo upn w endpointManager url doc :
  (AuthorityType_of authorityInfo = ADFS → upn ≠ "") →
  tryGetCachedEndpoints m authorityInfo upn w = Returns None w →
  create authorityInfo = Ok endpointManager →
  getOpenIDConfigurationEndpoint endpointManager authorityInfo upn = Ok url →
  tenantDiscoveryResponse (webRequestManager m) (discoveryRequests w) url = Ok doc →
  AuthorizationEndpoint doc = "" ∨ TokenEndpoint doc = "" ∨ Issuer doc = "" →
  ∃ msg,
    ResolveEndpoints create m authorityInfo upn w
    = Returns (Err (errors_New msg))
        {| endpointCacheEntries := endpointCacheEntries w;
           discoveryRequests := discoveryRequests w ++ [url] |}
    ∧ msg ∈ ["Authorize endpoint was not found in the openid configuration";
             "Token endpoint was not found in the openid configuration";
             "Issuer was not found in the openid configuration"].
Proof.
  intros Hupn Htry Hcreate Hurl Hdoc Hmissing.
  unfold ResolveEndpoints. rewrite upn_check_passes by done. go_unfold.
  rewrite Htry, Hcreate, Hurl, Hdoc.
  unfold HasAuthorizationEndpoint, HasTokenEndpoint, HasIssuer.
  destruct (decide (AuthorizationEndpoint doc = "")) as [Ha|Ha].
  { rewrite (bool_decide_eq_true_2 _ Ha). simpl.
    eexists. split; [done|]. repeat constructor. }
  rewrite (bool_decide_eq_false_2 _ Ha). simpl.
  destruct (decide (TokenEndpoint doc = "")) as [Ht|Ht].
  { rewrite (bool_decide_eq_true_2 _ Ht). simpl.
    eexists. split; [done|]. repeat constructor. }
  rewrite (bool_decide_eq_false_2 _ Ht). simpl.
  destruct Hmissing as [?|[?|Hi]]; [done..|].
  rewrite (bool_decide_eq_true_2 _ Hi). simpl.
  eexists. split; [done|]. repeat constructor.
Qed.

(** What a successful call leaves behind: an entry for the authority
    that holds the returned endpoints and, for ADFS, lists the domain of
    the name; the call either was a cache hit that changed nothing, or
    followed a miss and made exactly one discovery request. *)
Lemma ResolveEndpoints_Ok m authorityInfo upn w e w1 :
  ResolveEndpoints create m authorityInfo upn w = Returns (Ok e) w1 →
  (AuthorityType_of authorityInfo = ADFS → upn ≠ "")
  ∧ (∃ entry,
       endpointCacheEntries w1 !! CanonicalAuthorityURI authorityInfo = Some entry
       ∧ Endpoints entry = e
       ∧ (AuthorityType_of authorityInfo = ADFS →
          ∃ d, Strings.Split upn "@" !! 1 = Some d
               ∧ is_Some (ValidForDomainsInList entry !! d)))
  ∧ ((w1 = w ∧ tryGetCachedEndpoints m authorityInfo upn w = Returns (Some e) w)
     ∨ (tryGetCachedEndpoints m authorityInfo upn w = Returns None w
        ∧ ∃ url, discoveryRequests w1 = discoveryRequests w ++ [url])).
Proof.
  unfold ResolveEndpoints.
  destruct (_ && _) eqn:Hcheck; [done|].
  assert (AuthorityType_of authorityInfo = ADFS → upn ≠ "") as Hupn.
  { intros Hty ->. by rewrite bool_decide_eq_true_2 in Hcheck. }
  go_unfold.
  destruct (tryGetCachedEndpoints _ _ _ _) as [[e0|] w0|msg0 w0] eqn:Htry; [| |done].
  - pose proof (tryGetCachedEndpoints_Returns _ _ _ _ _ _ Htry) as Hw0; subst w0.
    intros [= -> <-]. split; [done|]. split; [|by left].
    unfold tryGetCachedEndpoints, getAdfsDomainFromUpn in Htry. go_unfold.
    destruct (endpointCacheEntries w !! _) as [entry|] eqn:Hentry; [|done].
    exists entry. split; [done|]. case_bool_decide as Hty.
    + destruct (Strings.Split upn "@" !! 1) as [d|] eqn:Hd; [|done].
      destruct (ValidForDomainsInList entry !! d) eqn:Hin; simplify_eq.
      split; [done|]. intros _. exists d. by rewrite Hin.
    + by simplify_eq.
  - pose proof (tryGetCachedEndpoints_Returns _ _ _ _ _ _ Htry) as Hw0; subst w0.
    destruct (create authorityInfo) as [em|e1]; [|done].
    destruct (getOpenIDConfigurationEndpoint _ _ _) as [url|e2]; [|done].
    destruct (tenantDiscoveryResponse _ _ _) as [doc|e3]; [|done].
    destruct (negb (HasAuthorizationEndpoint doc)); [done|].
    destruct (negb (HasTokenEndpoint doc)); [done|].
    destruct (negb (HasIssuer doc)); [done|].
    destruct (decide (AuthorityType_of authorityInfo = ADFS)) as [Hty|Hty].
    + destruct (Strings.Split upn "@" !! 1) as [d|] eqn:Hd.
      * rewrite (addCachedEndpoints_adfs _ _ _ _ _ d) by done.
        intros [= <- <-]. simpl. split; [done|]. split; [|right; eauto].
        eexists. rewrite lookup_insert_eq. split; [done|]. split; [done|].
        intros _. exists d. simpl. by rewrite lookup_insert_eq.
      * by rewrite addCachedEndpoints_adfs_panic.
    + rewrite addCachedEndpoints_standard by done.
      intros [= <- <-]. simpl. split; [done|]. split; [|right; eauto].
      eexists. rewrite lookup_insert_eq. by split.
Qed.

(** A usable entry is served, by any manager, without a request. *)
Lemma ResolveEndpoints_hit m authorityInfo upn w entry :
  endpointCacheEntries w !! CanonicalAuthorityURI authorityInfo = Some entry →
  (AuthorityType_of authorityInfo = ADFS →
   ∃ d, Strings.Split upn "@" !! 1 = Some d
        ∧ is_Some (ValidForDomainsInList entry !! d)) →
  ResolveEndpoints create m authorityInfo upn w = Returns (Ok (Endpoints entry)) w.
Proof.
  intros Hentry Hadfs. unfold ResolveEndpoints.
  destruct (decide (AuthorityType_of authorityInfo = ADFS)) as [Hty|Hty].
  - destruct (Hadfs Hty) as (d & Hd & [b Hb]).
    rewrite upn_check_passes; [|by intros _ ->].
    go_unfold. rewrite (tryGetCachedEndpoints_adfs _ _ _ _ entry d) by done.
    by rewrite Hb.
  - rewrite upn_check_passes by done. go_unfold.
    by rewrite (tryGetCachedEndpoints_standard _ _ _ _ entry).
Qed.

(** C5: once a call for a standard (non-ADFS) authority has returned
    endpoints, a further call for the same canonical URI, with any user
    principal name, returns the same endpoints and leaves the state as it
    is, so it makes no discovery request; when the first call found no
    entry for the URI, the two calls together made exactly one request. *)
Theorem ResolveEndpoints_standard_twice m authorityInfo upn w e w1 :
  AuthorityType_of authorityInfo ≠ ADFS →
  ResolveEndpoints create m authorityInfo upn w = Returns (Ok e) w1 →
  (∀ authorityInfo2 upn2,
     CanonicalAuthorityURI authorityInfo2 = CanonicalAuthorityURI authorityInfo →
     AuthorityType_of authorityInfo2 ≠ ADFS →
     ResolveEndpoints create m authorityInfo2 upn2 w1 = Returns (Ok e) w1)
  ∧ (endpointCacheEntries w !! CanonicalAuthorityURI authorityInfo = None →
     ∃ url, discoveryRequests w1 = discoveryRequests w ++ [url]).
Proof.
  intros Hty Hres.
  destruct (ResolveEndpoints_Ok _ _ _ _ _ _ Hres)
    as (_ & (entry & Hentry & <- & _) & Hpath).
  split.
  - intros authorityInfo2 upn2 Huri Hty2. apply ResolveEndpoints_hit; [|done].
    by rewrite Huri.
  - intros Hnone. destruct Hpath as [[_ Htry]|[_ Hurl]]; [|done].
    by rewrite tryGetCachedEndpoints_absent in Htry.
Qed.

(** C6: when the call has returned endpoints after a discovery request
    for [url], to which the Discovery Fetcher answered [doc], the returned
    authorization endpoint, token endpoint and issuer are those of [doc]
    with every occurrence of [{tenant}] replaced by the tenant of the
    authority, and the host is the host of the authority. *)
Theorem ResolveEndpoints_substitutes_tenant m authorityInfo upn w e w1 url doc :
  ResolveEndpoints create m authorityInfo upn w = Returns (Ok e) w1 →
  discoveryRequests w1 = discoveryRequests w ++ [url] →
  tenantDiscoveryResponse (webRequestManager m) (discoveryRequests w) url = Ok doc →
  ReplacedEvery "{tenant}" (Tenant authorityInfo)
    (AuthorizationEndpoint doc) (authorizationEndpoint e)
  ∧ ReplacedEvery "{tenant}" (Tenant authorityInfo)
      (TokenEndpoint doc) (tokenEndpoint e)
  ∧ ReplacedEvery "{tenant}" (Tenant authorityInfo) (Issuer doc) (issuer e)
  ∧ host e = Host authorityInfo.
Proof.
  unfold ResolveEndpoints. go_unfold.
  destruct (_ && _); [done|].
  destruct (tryGetCachedEndpoints _ _ _ _) as [[e0|] w0|msg0 w0] eqn:Htry; [| |done].
  { apply tryGetCachedEndpoints_Returns in Htry as ->.
    intros [= -> ->] Htrace. apply (f_equal length) in Htrace.
    rewrite length_app in Htrace. simpl in Htrace. lia. }
  apply tryGetCachedEndpoints_Returns in Htry as ->.
  destruct (create authorityInfo) as [em|e1]; [|done].
  destruct (getOpenIDConfigurationEndpoint _ _ _) as [url'|e2]; [|done].
  destruct (tenantDiscoveryResponse _ _ url') as [doc'|e3] eqn:Hdoc'; [|done].
  destruct (negb (HasAuthorizationEndpoint doc')); [done|].
  destruct (negb (HasTokenEndpoint doc')); [done|].
  destruct (negb (HasIssuer doc')); [done|].
  match goal with
  | |- context [addCachedEndpoints ?m ?a ?u ?x ?w] =>
      pose proof (addCachedEndpoints_trace m a u x w) as Htr;
      destruct (addCachedEndpoints m a u x w) as [[] w2|msg w2]; [|done]
  end.
  intros [= <- <-] Htrace Hdoc. simpl in Htr.
  rewrite Htr in Htrace. apply (inj (app _)) in Htrace. simplify_eq.
  rewrite Hdoc in Hdoc'. simplify_eq.
  simpl. repeat split; by apply Replace_ReplacedEvery.
Qed.

(** A call that returned endpoints and made a request stored them
    with [addCachedEndpoints], in the state the request left. *)
Lemma ResolveEndpoints_discovered m authorityInfo upn w e w1 :
  ResolveEndpoints create m authorityInfo upn w = Returns (Ok e) w1 →
  discoveryRequests w1 ≠ discoveryRequests w →
  ∃ url,
    addCachedEndpoints m authorityInfo upn e
      {| endpointCacheEntries := endpointCacheEntries w;
         discoveryRequests := discoveryRequests w ++ [url] |}
    = Returns tt w1.
Proof.
  unfold ResolveEndpoints. go_unfold.
  destruct (_ && _); [done|].
  destruct (tryGetCachedEndpoints _ _ _ _) as [[e0|] w0|msg0 w0] eqn:Htry; [| |done].
  { apply tryGetCachedEndpoints_Returns in Htry as ->. by intros [= -> ->]. }
  apply tryGetCachedEndpoints_Returns in Htry as ->.
  destruct (create authorityInfo) as [em|e1]; [|done].
  destruct (getOpenIDConfigurationEndpoint _ _ _) as [url|e2]; [|done].
  destruct (tenantDiscoveryResponse _ _ _) as [doc|e3]; [|done].
  destruct (negb (HasAuthorizationEndpoint doc)); [done|].
  destruct (negb (HasTokenEndpoint doc)); [done|].
  destruct (negb (HasIssuer doc)); [done|].
  destruct (addCachedEndpoints _ _ _ _ _) as [[] w2|msg w2] eqn:Hadd; [|done].
  intros [= <- <-] _. by exists url.
Qed.

(** C2, as the code has it: for an ADFS authority with an entry in the
    cache and a name [a@d...], where [d] runs from the first [@] to the next
    [@] or to the end of the name, a call that discovers endpoints afresh and
    stores them leaves an entry whose domain set is the old entry's domain
    set together with [d]: no domain recorded before is lost. *)
Theorem ResolveEndpoints_ADFS_unions_domain
    m authorityInfo w old a d rest e w1 :
  AuthorityType_of authorityInfo = ADFS →
  endpointCacheEntries w !! CanonicalAuthorityURI authorityInfo = Some old →
  Strings.Contains a "@" = false →
  Strings.Contains d "@" = false →
  rest = "" ∨ Strings.HasPrefix rest "@" = true →
  ResolveEndpoints create m authorityInfo (a +:+ "@" +:+ d +:+ rest) w
  = Returns (Ok e) w1 →
  discoveryRequests w1 ≠ discoveryRequests w →
  ∃ new,
    endpointCacheEntries w1 !! CanonicalAuthorityURI authorityInfo = Some new
    ∧ Endpoints new = e
    ∧ dom (ValidForDomainsInList new) = dom (ValidForDomainsInList old) ∪ {[d]}.
Proof.
  intros Hty Hold Ha Hd Hrest Hres Hreq.
  pose proof (Split_at_domain a d rest Ha Hd Hrest) as Hsplit.
  destruct (ResolveEndpoints_discovered _ _ _ _ _ _ Hres Hreq) as [url Hadd].
  rewrite (addCachedEndpoints_adfs _ _ _ _ _ d) in Hadd by done.
  simpl in Hadd. rewrite Hold in Hadd. injection Hadd as <-. simpl.
  eexists. rewrite lookup_insert_eq. split; [done|]. split; [done|]. simpl.
  rewrite dom_insert_L, copyDomains_dom, dom_empty_L.
  by rewrite (right_id_L ∅ (∪)), (comm_L (∪)).
Qed.

(** The cache check returns when the name has an [@]. *)
Lemma tryGetCachedEndpoints_total m authorityInfo upn w d :
  Strings.Split upn "@" !! 1 = Some d →
  ∃ r, tryGetCachedEndpoints m authorityInfo upn w = Returns r w.
Proof.
  intros Hd. unfold tryGetCachedEndpoints. go_unfold.
  destruct (endpointCacheEntries w !! _) as [entry|]; [|by eexists].
  destruct (bool_decide _); [|by eexists].
  rewrite (getAdfsDomainFromUpn_Some _ d) by done.
  destruct (ValidForDomainsInList entry !! d); by eexists.
Qed.

Lemma ResolveEndpoints_total m authorityInfo upn w d :
  Strings.Split upn "@" !! 1 = Some d →
  ∃ r w', ResolveEndpoints create m authorityInfo upn w = Returns r w'.
Proof.
  intros Hd. unfold ResolveEndpoints. go_unfold.
  destruct (_ && _); [by eexists _, _|].
  destruct (tryGetCachedEndpoints_total m authorityInfo upn w d Hd) as [r ->].
  destruct r as [e|]; [by eexists _, _|].
  destruct (create authorityInfo) as [em|e1]; [|by eexists _, _].
  destruct (getOpenIDConfigurationEndpoint _ _ _) as [url|e2]; [|by eexists _, _].
  destruct (tenantDiscoveryResponse _ _ _) as [doc|e3]; [|by eexists _, _].
  destruct (negb (HasAuthorizationEndpoint doc)); [by eexists _, _|].
  destruct (negb (HasTokenEndpoint doc)); [by eexists _, _|].
  destruct (negb (HasIssuer doc)); [by eexists _, _|].
  destruct (decide (AuthorityType_of authorityInfo = ADFS)) as [Hty|Hty].
  - rewrite (addCachedEndpoints_adfs _ _ _ _ _ d) by done. by eexists _, _.
  - rewrite addCachedEndpoints_standard by done. by eexists _, _.
Qed.

(** C9: for an ADFS authority and a non-empty name, [ResolveEndpoints]
    returns, endpoints or an error, in every state and with every manager
    exactly when the name contains an [@]; without one, the domain
    extraction [strings.Split(upn, "@")[1]] panics with an index out of
    range instead of returning an error, and so does the call as soon as the
    cache holds an entry for the authority. *)
Theorem ResolveEndpoints_ADFS_total_iff_at authorityInfo upn :
  AuthorityType_of authorityInfo = ADFS →
  upn ≠ "" →
  ((∀ m w, ∃ r w', ResolveEndpoints create m authorityInfo upn w = Returns r w')
   ↔ Strings.Contains upn "@" = true)
  ∧ (Strings.Contains upn "@" = false →
     (∀ w, getAdfsDomainFromUpn upn w = Panics "index out of range" w)
     ∧ ∀ m w, is_Some (endpointCacheEntries w
                         !! CanonicalAuthorityURI authorityInfo) →
              ResolveEndpoints create m authorityInfo upn w
              = Panics "index out of range" w).
Proof.
  intros Hty Hupn.
  assert (Strings.Contains upn "@" = false →
          ∀ m w, is_Some (endpointCacheEntries w
                            !! CanonicalAuthorityURI authorityInfo) →
                 ResolveEndpoints create m authorityInfo upn w
                 = Panics "index out of range" w) as Hpanic.
  { intros Hno m w [entry Hentry].
    assert (Strings.Split upn "@" !! 1 = None) as Hd.
    { apply eq_None_not_Some. rewrite Split_at_second. by rewrite Hno. }
    unfold ResolveEndpoints. rewrite upn_check_passes by done. go_unfold.
    by rewrite (tryGetCachedEndpoints_adfs_panic _ _ _ _ entry). }
  split; [split|].
  - intros Htotal. destruct (Strings.Contains upn "@") eqn:Hno; [done|].
    set (m := CreateAuthorityEndpointResolutionManager
                {| tenantDiscoveryResponse := λ _ _, Err (errors_New "") |}).
    set (w := {| endpointCacheEntries :=
                   {[CanonicalAuthorityURI authorityInfo :=
                       createAuthorityEndpointCacheEntry
                         (CreateAuthorityEndpoints "" "" "" "")]};
                 discoveryRequests := [] |}).
    destruct (Htotal m w) as (r & w' & Hr).
    rewrite (Hpanic eq_refl m w) in Hr; [done|].
    subst w. simpl. rewrite lookup_singleton_eq. by eexists.
  - intros [d Hd]%Split_at_second m w. by eapply ResolveEndpoints_total.
  - intros Hno. split; [|by apply Hpanic].
    intros w. apply getAdfsDomainFromUpn_None.
    apply eq_None_not_Some. rewrite Split_at_second. by rewrite Hno.
Qed.

(** C1, as the code has it: for an ADFS authority with an entry in the
    cache and a name [a@d...], where [d] runs from the first [@] to the
    next [@] or to the end of the name, [ResolveEndpoints] serves the
    cached endpoints, without a request, exactly when [d] is in the
    entry's domain set. *)
Theorem ResolveEndpoints_ADFS_hit_iff_domain
    m authorityInfo w entry a d rest :
  AuthorityType_of authorityInfo = ADFS →
  endpointCacheEntries w !! CanonicalAuthorityURI authorityInfo = Some entry →
  Strings.Contains a "@" = false →
  Strings.Contains d "@" = false →
  rest = "" ∨ Strings.HasPrefix rest "@" = true →
  ResolveEndpoints create m authorityInfo (a +:+ "@" +:+ d +:+ rest) w
  = Returns (Ok (Endpoints entry)) w
  ↔ d ∈ dom (ValidForDomainsInList entry).
Proof.
  intros Hty Hentry Ha Hd Hrest.
  pose proof (Split_at_domain a d rest Ha Hd Hrest) as Hsplit.
  rewrite elem_of_dom. split.
  - intros Hres.
    destruct (ResolveEndpoints_Ok _ _ _ _ _ _ Hres) as (_ & _ & [[_ Htry]|[_ [url Hurl]]]).
    + rewrite (tryGetCachedEndpoints_adfs _ _ _ _ entry d) in Htry by done.
      by destruct (ValidForDomainsInList entry !! d).
    + apply (f_equal length) in Hurl. rewrite length_app in Hurl.
      simpl in Hurl. lia.
  - intros Hin. apply ResolveEndpoints_hit; [done|]. eauto.
Qed.

(** C8, as the code has it: [endpointCacheEntries] is one package-level
    map for all managers.  Endpoints that a call through one manager has
    returned are served to any other manager for the same authority and
    name, and for a standard authority for any name, without a request
    through that manager's Discovery Fetcher. *)
Theorem endpoint_cache_shared_by_managers m1 m2 authorityInfo upn w e w1 :
  ResolveEndpoints create m1 authorityInfo upn w = Returns (Ok e) w1 →
  ResolveEndpoints create m2 authorityInfo upn w1 = Returns (Ok e) w1
  ∧ (AuthorityType_of authorityInfo ≠ ADFS →
     ∀ upn2, ResolveEndpoints create m2 authorityInfo upn2 w1 = Returns (Ok e) w1).
Proof.
  intros Hres.
  destruct (ResolveEndpoints_Ok _ _ _ _ _ _ Hres)
    as (_ & (entry & Hentry & <- & Hd) & _).
  split; [by apply ResolveEndpoints_hit|].
  intros Hty upn2. by apply ResolveEndpoints_hit.
Qed.

End ResolverFacts.

(** ** Concrete runs *)

Import Fixtures.

Lemma ResolveEndpoints_ADFS_requires_upn_witness :
  AuthorityType_of adfsAuthorityInfo = ADFS
  ∧ ResolveEndpoints createEndpointManager
      (CreateAuthorityEndpointResolutionManager (wrmReturning adfsDocument))
      adfsAuthorityInfo "" (adfsWorld "y.com")
    = Returns (Err (errors_New "UPN Required for Authority Validation for ADFS"))
        (adfsWorld "y.com").
Proof.
  split; [reflexivity|].
  apply ResolveEndpoints_ADFS_requires_upn. reflexivity.
Defined.

Lemma ResolveEndpoints_incomplete_document_witness :
  (AuthorityType_of adfsAuthorityInfo = ADFS → "user@contoso.com" ≠ "")
  ∧ Issuer tdrNoIssuer = ""
  ∧ ∃ msg,
      ResolveEndpoints createEndpointManager
        (CreateAuthorityEndpointResolutionManager (wrmReturning tdrNoIssuer))
        adfsAuthorityInfo "user@contoso.com" initialWorld
      = Returns (Err (errors_New msg))
          {| endpointCacheEntries := ∅; discoveryRequests := [] ++ [adfsURL] |}
      ∧ msg ∈ ["Authorize endpoint was not found in the openid configuration";
               "Token endpoint was not found in the openid configuration";
               "Issuer was not found in the openid configuration"].
Proof.
  split; [discriminate|]. split; [reflexivity|].
  apply (ResolveEndpoints_incomplete_document createEndpointManager
           (CreateAuthorityEndpointResolutionManager (wrmReturning tdrNoIssuer))
           adfsAuthorityInfo "user@contoso.com" initialWorld
           endpointManager adfsURL tdrNoIssuer).
  - discriminate.
  - vm_compute. reflexivity.
  - reflexivity.
  - vm_compute. reflexivity.
  - reflexivity.
  - right. right. reflexivity.
Defined.

Lemma ResolveEndpoints_error_keeps_cache_witness :
  ResolveEndpoints createEndpointManager
    (CreateAuthorityEndpointResolutionManager wrmFailing)
    adfsAuthorityInfo "user@x.com" (adfsWorld "y.com")
  = Returns (Err (errors_New "This is a mock error"))
      {| endpointCacheEntries := endpointCacheEntries (adfsWorld "y.com");
         discoveryRequests := [adfsURL] |}
  ∧ endpointCacheEntries
      {| endpointCacheEntries := endpointCacheEntries (adfsWorld "y.com");
         discoveryRequests := [adfsURL] |}
    = endpointCacheEntries (adfsWorld "y.com").
Proof.
  assert (ResolveEndpoints createEndpointManager
            (CreateAuthorityEndpointResolutionManager wrmFailing)
            adfsAuthorityInfo "user@x.com" (adfsWorld "y.com")
          = Returns (Err (errors_New "This is a mock error"))
              {| endpointCacheEntries := endpointCacheEntries (adfsWorld "y.com");
                 discoveryRequests := [adfsURL] |}) as Hres.
  { vm_compute. reflexivity. }
  split; [exact Hres|].
  exact (ResolveEndpoints_error_keeps_cache _ _ _ _ _ _ _ Hres).
Defined.

Lemma ResolveEndpoints_standard_twice_witness :
  AuthorityType_of testAuthorityInfo ≠ ADFS
  ∧ ResolveEndpoints createEndpointManager
      (CreateAuthorityEndpointResolutionManager (wrmReturning tdr))
      testAuthorityInfo "" initialWorld
    = Returns (Ok testAuthorityEndpoints) resolvedWorld
  ∧ ResolveEndpoints createEndpointManager
      (CreateAuthorityEndpointResolutionManager (wrmReturning tdr))
      testAuthorityInfo "someone@example.com" resolvedWorld
    = Returns (Ok testAuthorityEndpoints) resolvedWorld
  ∧ ∃ url, discoveryRequests resolvedWorld = discoveryRequests initialWorld ++ [url].
Proof.
  split; [discriminate|]. split; [vm_compute; reflexivity|].
  destruct (ResolveEndpoints_standard_twice createEndpointManager
              (CreateAuthorityEndpointResolutionManager (wrmReturning tdr))
              testAuthorityInfo "" initialWorld testAuthorityEndpoints resolvedWorld)
    as [Hsecond Hone].
  - discriminate.
  - vm_compute. reflexivity.
  - split.
    + apply Hsecond; [reflexivity|discriminate].
    + apply Hone. reflexivity.
Defined.

Lemma ResolveEndpoints_substitutes_tenant_witness :
  ResolveEndpoints createEndpointManager
    (CreateAuthorityEndpointResolutionManager (wrmReturning tdrTemplate))
    contosoAuthorityInfo "" initialWorld
  = Returns (Ok contosoEndpoints) contosoWorld
  ∧ ReplacedEvery "{tenant}" "contoso.onmicrosoft.com"
      "https://login.microsoftonline.com/{tenant}/oauth2/v2.0/authorize"
      "https://login.microsoftonline.com/contoso.onmicrosoft.com/oauth2/v2.0/authorize"
  ∧ ReplacedEvery "{tenant}" "contoso.onmicrosoft.com"
      "https://login.microsoftonline.com/{tenant}/oauth2/v2.0/token"
      "https://login.microsoftonline.com/contoso.onmicrosoft.com/oauth2/v2.0/token"
  ∧ ReplacedEvery "{tenant}" "contoso.onmicrosoft.com"
      "https://login.microsoftonline.com/{tenant}/v2.0"
      "https://login.microsoftonline.com/contoso.onmicrosoft.com/v2.0"
  ∧ host contosoEndpoints = "login.microsoftonline.com".
Proof.
  split; [vm_compute; reflexivity|].
  apply (ResolveEndpoints_substitutes_tenant createEndpointManager
           (CreateAuthorityEndpointResolutionManager (wrmReturning tdrTemplate))
           contosoAuthorityInfo "" initialWorld contosoEndpoints contosoWorld
           "https://login.microsoftonline.com/contoso.onmicrosoft.com/v2.0/.well-known/openid-configuration"
           tdrTemplate).
  - vm_compute. reflexivity.
  - reflexivity.
  - reflexivity.
Defined.

Lemma ResolveEndpoints_ADFS_unions_domain_witness :
  AuthorityType_of adfsAuthorityInfo = ADFS
  ∧ Strings.Contains "user" "@" = false
  ∧ Strings.Contains "dept" "@" = false
  ∧ Strings.HasPrefix "@contoso.com" "@" = true
  ∧ ResolveEndpoints createEndpointManager
      (CreateAuthorityEndpointResolutionManager (wrmReturning adfsDocument))
      adfsAuthorityInfo ("user" +:+ "@" +:+ "dept" +:+ "@contoso.com")
      (adfsWorld "y.com")
    = Returns (Ok adfsEndpoints) Runs.adfsWorldDeptY
  ∧ ∃ new,
      endpointCacheEntries Runs.adfsWorldDeptY
        !! CanonicalAuthorityURI adfsAuthorityInfo = Some new
      ∧ Endpoints new = adfsEndpoints
      ∧ dom (ValidForDomainsInList new)
        = dom (ValidForDomainsInList (adfsEntry "y.com")) ∪ {["dept"]}.
Proof.
  do 4 (split; [reflexivity|]). split; [vm_compute; reflexivity|].
  apply (ResolveEndpoints_ADFS_unions_domain createEndpointManager
           (CreateAuthorityEndpointResolutionManager (wrmReturning adfsDocument))
           adfsAuthorityInfo (adfsWorld "y.com") (adfsEntry "y.com")
           "user" "dept" "@contoso.com" adfsEndpoints Runs.adfsWorldDeptY).
  - reflexivity.
  - vm_compute. reflexivity.
  - reflexivity.
  - reflexivity.
  - right. reflexivity.
  - vm_compute. reflexivity.
  - discriminate.
Defined.

Lemma ResolveEndpoints_ADFS_total_iff_at_witness :
  AuthorityType_of adfsAuthorityInfo = ADFS
  ∧ "user" ≠ ""
  ∧ Strings.Contains "user" "@" = false
  ∧ ResolveEndpoints createEndpointManager
      (CreateAuthorityEndpointResolutionManager (wrmReturning adfsDocument))
      adfsAuthorityInfo "user" (adfsWorld "y.com")
    = Panics "index out of range" (adfsWorld "y.com").
Proof.
  split; [reflexivity|]. split; [discriminate|]. split; [reflexivity|].
  destruct (ResolveEndpoints_ADFS_total_iff_at createEndpointManager
              adfsAuthorityInfo "user") as [_ Hpanic].
  - reflexivity.
  - discriminate.
  - apply Hpanic; [reflexivity|]. vm_compute. eauto.
Defined.

Lemma ResolveEndpoints_ADFS_hit_iff_domain_witness :
  AuthorityType_of adfsAuthorityInfo = ADFS
  ∧ Strings.Contains "user" "@" = false
  ∧ Strings.Contains "dept" "@" = false
  ∧ Strings.HasPrefix "@contoso.com" "@" = true
  ∧ (ResolveEndpoints createEndpointManager
       (CreateAuthorityEndpointResolutionManager wrmFailing)
       adfsAuthorityInfo ("user" +:+ "@" +:+ "dept" +:+ "@contoso.com")
       (adfsWorld "dept")
     = Returns (Ok (Endpoints (adfsEntry "dept"))) (adfsWorld "dept")
     ↔ "dept" ∈ dom (ValidForDomainsInList (adfsEntry "dept"))).
Proof.
  split; [reflexivity|]. split; [reflexivity|]. split; [reflexivity|].
  split; [reflexivity|].
  apply (ResolveEndpoints_ADFS_hit_iff_domain createEndpointManager
           (CreateAuthorityEndpointResolutionManager wrmFailing)
           adfsAuthorityInfo (adfsWorld "dept") (adfsEntry "dept")
           "user" "dept" "@contoso.com").
  - reflexivity.
  - vm_compute. reflexivity.
  - reflexivity.
  - reflexivity.
  - right. reflexivity.
Defined.

Lemma endpoint_cache_shared_by_managers_witness :
  ResolveEndpoints createEndpointManager
    (CreateAuthorityEndpointResolutionManager (wrmReturning tdr))
    testAuthorityInfo "" initialWorld
  = Returns (Ok testAuthorityEndpoints) resolvedWorld
  ∧ ResolveEndpoints createEndpointManager
      (CreateAuthorityEndpointResolutionManager wrmFailing)
      testAuthorityInfo "" resolvedWorld
    = Returns (Ok testAuthorityEndpoints) resolvedWorld.
Proof.
  split; [vm_compute; reflexivity|].
  destruct (endpoint_cache_shared_by_managers createEndpointManager
              (CreateAuthorityEndpointResolutionManager (wrmReturning tdr))
              (CreateAuthorityEndpointResolutionManager wrmFailing)
              testAuthorityInfo "" initialWorld testAuthorityEndpoints resolvedWorld)
    as [Hsame _].
  - vm_compute. reflexivity.
  - exact Hsame.
Defined.

(** ** Where the code departs from the wording of the specification *)

(** For the name [user@dept@contoso.com] the substring after the last
    [@] is [contoso.com], for which the cached ADFS entry is valid; the code
    looks [dept] up instead, misses, and goes to the Discovery Fetcher. *)
Lemma ResolveEndpoints_ADFS_last_at_counterexample :
  ResolveEndpoints createEndpointManager
    (CreateAuthorityEndpointResolutionManager wrmFailing)
    adfsAuthorityInfo "user@dept@contoso.com" (adfsWorld "contoso.com")
  = Returns (Err (errors_New "This is a mock error"))
      {| endpointCacheEntries := endpointCacheEntries (adfsWorld "contoso.com");
         discoveryRequests := [adfsURL] |}
  ∧ ¬ (ResolveEndpoints createEndpointManager
         (CreateAuthorityEndpointResolutionManager wrmFailing)
         adfsAuthorityInfo "user@dept@contoso.com" (adfsWorld "contoso.com")
       = Returns (Ok (Endpoints (adfsEntry "contoso.com"))) (adfsWorld "contoso.com")
       ↔ upnDomainAfterLastAt "user@dept@contoso.com"
           ∈ dom (ValidForDomainsInList (adfsEntry "contoso.com"))).
Proof.
  assert (ResolveEndpoints createEndpointManager
            (CreateAuthorityEndpointResolutionManager wrmFailing)
            adfsAuthorityInfo "user@dept@contoso.com" (adfsWorld "contoso.com")
          = Returns (Err (errors_New "This is a mock error"))
              {| endpointCacheEntries := endpointCacheEntries (adfsWorld "contoso.com");
                 discoveryRequests := [adfsURL] |}) as Hres.
  { vm_compute. reflexivity. }
  split; [exact Hres|]. rewrite Hres. intros [_ Hserved].
  assert (upnDomainAfterLastAt "user@dept@contoso.com"
            ∈ dom (ValidForDomainsInList (adfsEntry "contoso.com"))) as Hin.
  { apply elem_of_dom. vm_compute. eauto. }
  specialize (Hserved Hin). discriminate.
Qed.

(** Storing over an entry that is valid for [y.com], for the name
    [user@dept@contoso.com]: the substring after the last [@] is
    [contoso.com], but the stored domain set is that of [y.com] and
    [dept]; [contoso.com] is not in it. *)
Lemma ResolveEndpoints_ADFS_union_last_at_counterexample :
  ResolveEndpoints createEndpointManager
    (CreateAuthorityEndpointResolutionManager (wrmReturning adfsDocument))
    adfsAuthorityInfo "user@dept@contoso.com" (adfsWorld "y.com")
  = Returns (Ok adfsEndpoints) Runs.adfsWorldDeptY
  ∧ endpointCacheEntries Runs.adfsWorldDeptY !! CanonicalAuthorityURI adfsAuthorityInfo
    = Some {| Endpoints := adfsEndpoints;
              ValidForDomainsInList := {[ "dept" := true; "y.com" := true ]} |}
  ∧ upnDomainAfterLastAt "user@dept@contoso.com" = "contoso.com"
  ∧ dom ({[ "dept" := true; "y.com" := true ]} : gmap string bool)
    ≠ dom (ValidForDomainsInList (adfsEntry "y.com"))
        ∪ {[ upnDomainAfterLastAt "user@dept@contoso.com" ]}.
Proof.
  split; [vm_compute; reflexivity|]. split; [vm_compute; reflexivity|].
  split; [vm_compute; reflexivity|].
  intros Heq.
  assert (upnDomainAfterLastAt "user@dept@contoso.com"
            ∈ dom ({[ "dept" := true; "y.com" := true ]} : gmap string bool))
    as Hin.
  { rewrite Heq. apply elem_of_union_r, elem_of_singleton. reflexivity. }
  apply elem_of_dom in Hin as [b Hb]. vm_compute in Hb. discriminate.
Qed.

(** Two managers with different Discovery Fetchers: on a fresh process
    the second one misses, asks its own fetcher and fails; after the first
    one has resolved the authority, the same call through the second one is a
    cache hit. *)
Lemma endpoint_cache_per_manager_counterexample :
  CreateAuthorityEndpointResolutionManager (wrmReturning tdr)
    ≠ CreateAuthorityEndpointResolutionManager wrmFailing
  ∧ ResolveEndpoints createEndpointManager
      (CreateAuthorityEndpointResolutionManager (wrmReturning tdr))
      testAuthorityInfo "" initialWorld
    = Returns (Ok testAuthorityEndpoints) resolvedWorld
  ∧ ResolveEndpoints createEndpointManager
      (CreateAuthorityEndpointResolutionManager wrmFailing)
      testAuthorityInfo "" initialWorld
    = Returns (Err (errors_New "This is a mock error"))
        {| endpointCacheEntries := ∅;
           discoveryRequests := [openIDConfigurationURL] |}
  ∧ ResolveEndpoints createEndpointManager
      (CreateAuthorityEndpointResolutionManager wrmFailing)
      testAuthorityInfo "" resolvedWorld
    = Returns (Ok testAuthorityEndpoints) resolvedWorld.
Proof.
  split.
  { intros Heq.
    apply (f_equal (λ m, tenantDiscoveryResponse (webRequestManager m) [] "")) in Heq.
    discriminate. }
  repeat split; vm_compute; reflexivity.
Qed.

(** ** Tenant overrides *)

Section TenantOverrides.

Import TenantID.

Implicit Types (client : string → string → string → Observed).

(** Every subtest of a passing run has passed. *)
Lemma TestAcquireTokenWithTenantID_subtest client test method :
  TestAcquireTokenWithTenantID client = true →
  test ∈ tenantTests → method ∈ methods →
  subtest method test (client method (authority test) (tenant test)) = true.
Proof.
  intros Hpass Htest Hmethod. unfold TestAcquireTokenWithTenantID in Hpass.
  rewrite forallb_forall in Hpass.
  specialize (Hpass test (proj1 (list_elem_of_In _ _) Htest)).
  rewrite forallb_forall in Hpass.
  exact (Hpass method (proj1 (list_elem_of_In _ _) Hmethod)).
Qed.

(** A row that expects an error passes only if the acquisition failed. *)
Lemma subtest_expectError method test o :
  subtest method test o = true → expectError test = true → acquireError o = true.
Proof.
  unfold subtest. intros Hpass Hexpect. rewrite Hexpect in Hpass.
  destruct (newError o); [done|]. destruct (silentEmptyError o); [|done].
  simpl in Hpass. destruct (bool_decide (method ∈ methods)); [|done].
  simpl in Hpass. by destruct (acquireError o).
Qed.

(** A row that expects no error passes only if the acquisition succeeded
    and its request went to the expected authority; for the methods that
    acquire a token, silent authentication then succeeds for the tenant and
    fails for another one. *)
Lemma subtest_expectSuccess method test o :
  subtest method test o = true → expectError test = false →
  acquireError o = false
  ∧ Strings.HasPrefix (requestURL o) (expectedAuthority test) = true
  ∧ (method ≠ "authcodeURL" →
     silentError o = false ∧ silentToken o = accessToken
     ∧ silentOtherError o = true).
Proof.
  unfold subtest. intros Hpass Hexpect. rewrite Hexpect in Hpass.
  destruct (newError o); [done|]. destruct (silentEmptyError o); [|done].
  simpl in Hpass. destruct (bool_decide (method ∈ methods)); [|done].
  simpl in Hpass. destruct (acquireError o); [done|]. split; [done|].
  destruct (_ && _); [done|].
  destruct (Strings.HasPrefix _ _); [|done]. split; [done|]. simpl in Hpass.
  intros Hmethod. rewrite bool_decide_eq_false_2 in Hpass by done.
  case_bool_decide; [|done]. simpl in Hpass.
  destruct (silentError o); [done|].
  case_bool_decide; [|done]. simpl in Hpass.
  by destruct (silentOtherError o).
Qed.



End TenantOverrides.


(** * Further properties of the resolver *)

Section ResolverEffects.

Context (create : AuthorityInfo → result IOpenIDConfigurationEndpointManager).

Implicit Types (m : AuthorityEndpointResolutionManager) (w : World).
Implicit Types (authorityInfo : AuthorityInfo) (upn : string).

(** The state right after the discovery request for [url]. *)
Local Abbreviation requested w url :=
  {| endpointCacheEntries := endpointCacheEntries w;
     discoveryRequests := discoveryRequests w ++ [url] |}.

Ltac go_unfold_all :=
  unfold readCache, writeCache, GetTenantDiscoveryResponse, index_slice in *;
  unfold mbind, mret, Go_bind, Go_ret, panic in *.

(** The three ways a call can end: without any effect; after a request
    but without storing or returning endpoints; or with endpoints that
    [addCachedEndpoints] has stored in the state the request left. *)
Lemma ResolveEndpoints_effect m authorityInfo upn w :
  (finalWorld (ResolveEndpoints create m authorityInfo upn w) = w
   ∧ ∀ e w', ResolveEndpoints create m authorityInfo upn w = Returns (Ok e) w' →
             tryGetCachedEndpoints m authorityInfo upn w = Returns (Some e) w)
  ∨ ∃ endpointManager url,
      tryGetCachedEndpoints m authorityInfo upn w = Returns None w
      ∧ (AuthorityType_of authorityInfo = ADFS → upn ≠ "")
      ∧ create authorityInfo = Ok endpointManager
      ∧ getOpenIDConfigurationEndpoint endpointManager authorityInfo upn = Ok url
      ∧ ((finalWorld (ResolveEndpoints create m authorityInfo upn w) = requested w url
          ∧ ∀ e w', ResolveEndpoints create m authorityInfo upn w ≠ Returns (Ok e) w')
         ∨ ∃ e w',
             ResolveEndpoints create m authorityInfo upn w = Returns (Ok e) w'
             ∧ addCachedEndpoints m authorityInfo upn e (requested w url)
               = Returns tt w').
Proof.
  unfold ResolveEndpoints.
  destruct (_ && _) eqn:Hcheck; [by left|].
  assert (AuthorityType_of authorityInfo = ADFS → upn ≠ "") as Hupn.
  { intros Hty ->. by rewrite bool_decide_eq_true_2 in Hcheck. }
  go_unfold_all.
  destruct (tryGetCachedEndpoints _ _ _ _) as [[e0|] w0|msg0 w0] eqn:Htry.
  - apply tryGetCachedEndpoints_Returns in Htry as Hw. subst w0. left.
    split; [done|]. by intros e w' [= -> _].
  - apply tryGetCachedEndpoints_Returns in Htry as Hw. subst w0.
    destruct (create authorityInfo) as [em|e1]; [|by left].
    destruct (getOpenIDConfigurationEndpoint _ _ _) as [url|e2] eqn:Hurl; [|by left].
    right. exists em, url. do 4 (split; [done|]).
    destruct (tenantDiscoveryResponse _ _ _) as [doc|e3]; [|by left].
    destruct (negb (HasAuthorizationEndpoint doc)); [by left|].
    destruct (negb (HasTokenEndpoint doc)); [by left|].
    destruct (negb (HasIssuer doc)); [by left|].
    match goal with
    | |- context [addCachedEndpoints ?m ?a ?u ?x ?w] =>
        destruct (addCachedEndpoints m a u x w) as [[] w2|msg w2] eqn:Hadd
    end.
    + right. by eexists _, _.
    + left. split; [|done]. simpl.
      unfold addCachedEndpoints, getAdfsDomainFromUpn in Hadd. go_unfold_all.
      destruct (bool_decide _); [|done].
      destruct (Strings.Split upn "@" !! 1); [done|]. by simplify_eq.
  - apply tryGetCachedEndpoints_Panics in Htry as Hw. subst w0. by left.
Qed.

(** What [addCachedEndpoints] stores. *)
Lemma addCachedEndpoints_Returns m authorityInfo upn e w w' :
  addCachedEndpoints m authorityInfo upn e w = Returns tt w' →
  ∃ entry,
    Endpoints entry = e
    ∧ endpointCacheEntries w'
      = <[CanonicalAuthorityURI authorityInfo := entry]> (endpointCacheEntries w)
    ∧ discoveryRequests w' = discoveryRequests w
    ∧ (∀ d b, ValidForDomainsInList entry !! d = Some b → b = true)
    ∧ (AuthorityType_of authorityInfo = ADFS →
       ∀ old, endpointCacheEntries w !! CanonicalAuthorityURI authorityInfo = Some old →
              dom (ValidForDomainsInList old) ⊆ dom (ValidForDomainsInList entry)).
Proof.
  destruct (decide (AuthorityType_of authorityInfo = ADFS)) as [Hty|Hty].
  - destruct (Strings.Split upn "@" !! 1) as [d|] eqn:Hd;
      [|by rewrite addCachedEndpoints_adfs_panic].
    rewrite (addCachedEndpoints_adfs _ _ _ _ _ d) by done.
    intros [= <-]. eexists (Build_authorityEndpointCacheEntry e _). simpl.
    do 3 (split; [done|]). split.
    + intros d' b. destruct (decide (d = d')) as [->|Hne].
      * rewrite lookup_insert_eq. congruence.
      * rewrite lookup_insert_ne by done.
        destruct (endpointCacheEntries w !! _) as [old|]; [|by rewrite lookup_empty].
        rewrite copyDomains_lookup, lookup_empty.
        destruct (ValidForDomainsInList old !! d'); congruence.
    + intros _ old ->. rewrite dom_insert_L, copyDomains_dom.
      apply union_subseteq_r', union_subseteq_l.
  - rewrite addCachedEndpoints_standard by done.
    intros [= <-]. eexists (Build_authorityEndpointCacheEntry e _). simpl.
    do 3 (split; [done|]). split; [|done].
    intros d b. by rewrite lookup_empty.
Qed.

(** The text before the first occurrence holds no occurrence. *)
Lemma Index_slice_to_None s sub i :
  sub ≠ "" → Strings.Index s sub = Some i →
  Strings.Index (Strings.slice_to i s) sub = None.
Proof.
  intros Hsub Hi. destruct (Index_Some_split _ _ _ Hi) as [Hs Hlen].
  destruct (Strings.Index (Strings.slice_to i s) sub) as [j|] eqn:Hj; [|done].
  destruct (Index_Some_split _ _ _ Hj) as [Hcut Hlenj].
  rewrite length_slice_to in Hlenj by lia.
  assert (0 < String.length sub) by (destruct sub; [done|simpl; lia]).
  assert (i ≤ j); [|lia].
  pose proof (Index_Some_least s sub i
                (Strings.slice_to j (Strings.slice_to i s))
                (Strings.slice_from (j + String.length sub) (Strings.slice_to i s)
                   +:+ sub +:+ Strings.slice_from (i + String.length sub) s)
                Hi) as Hleast.
  rewrite length_slice_to in Hleast by (rewrite length_slice_to; lia).
  apply Hleast. rewrite Hs at 1. rewrite Hcut at 1. by rewrite !app_assoc_s.
Qed.

Lemma getAdfsDomainFromUpn_Returns_inv upn d w w' :
  getAdfsDomainFromUpn upn w = Returns d w' → Strings.Split upn "@" !! 1 = Some d.
Proof.
  unfold getAdfsDomainFromUpn. go_unfold_all.
  destruct (Strings.Split upn "@" !! 1); [|done]. by intros [= -> _].
Qed.

(** X1: a call changes the cache in one way only: it sets the entry of
    the authority's own canonical URI to an entry that holds the endpoints
    it returns, and it does so only after one discovery request. On every
    other path, error or panic included, the map is the one it started
    with. *)
Theorem ResolveEndpoints_cache_effect m authorityInfo upn w :
  endpointCacheEntries (finalWorld (ResolveEndpoints create m authorityInfo upn w))
  = endpointCacheEntries w
  ∨ ∃ e entry w' url,
      ResolveEndpoints create m authorityInfo upn w = Returns (Ok e) w'
      ∧ Endpoints entry = e
      ∧ endpointCacheEntries w'
        = <[CanonicalAuthorityURI authorityInfo := entry]> (endpointCacheEntries w)
      ∧ discoveryRequests w' = discoveryRequests w ++ [url].
Proof.
  destruct (ResolveEndpoints_effect m authorityInfo upn w)
    as [[-> _]|(em & url & _ & _ & _ & _ & [[-> _]|(e & w' & Hres & Hadd)])];
    [by left..|].
  right. destruct (addCachedEndpoints_Returns _ _ _ _ _ _ Hadd)
    as (entry & He & Hcache & Htrace & _).
  by exists e, entry, w', url.
Qed.

(** X2: a call makes at most one discovery request, never rewrites the
    requests made before, and makes the request only after a cache miss, to
    the URL that the endpoint manager computed for the authority and the
    name. *)
Theorem ResolveEndpoints_at_most_one_request m authorityInfo upn w :
  discoveryRequests (finalWorld (ResolveEndpoints create m authorityInfo upn w))
  = discoveryRequests w
  ∨ ∃ endpointManager url,
      tryGetCachedEndpoints m authorityInfo upn w = Returns None w
      ∧ create authorityInfo = Ok endpointManager
      ∧ getOpenIDConfigurationEndpoint endpointManager authorityInfo upn = Ok url
      ∧ discoveryRequests
          (finalWorld (ResolveEndpoints create m authorityInfo upn w))
        = discoveryRequests w ++ [url].
Proof.
  destruct (ResolveEndpoints_effect m authorityInfo upn w)
    as [[-> _]|(em & url & Htry & _ & Hcreate & Hurl & Hrest)]; [by left|].
  right. exists em, url. do 3 (split; [done|]).
  destruct Hrest as [[-> _]|(e & w' & -> & Hadd)]; [done|]. simpl.
  by destruct (addCachedEndpoints_Returns _ _ _ _ _ _ Hadd) as (_ & _ & _ & -> & _).
Qed.

(** X3: no call, for any authority and with any outcome, removes an
    entry from the cache or a domain from an entry: whatever was cached
    before is still cached after, with at least the same domains. *)
Theorem ResolveEndpoints_keeps_entries_and_domains m authorityInfo upn w k old :
  endpointCacheEntries w !! k = Some old →
  ∃ new,
    endpointCacheEntries (finalWorld (ResolveEndpoints create m authorityInfo upn w))
      !! k = Some new
    ∧ dom (ValidForDomainsInList old) ⊆ dom (ValidForDomainsInList new).
Proof.
  intros Hold.
  destruct (ResolveEndpoints_effect m authorityInfo upn w)
    as [[-> _]|(em & url & Htry & _ & _ & _ & [[-> _]|(e & w' & -> & Hadd)])];
    [by exists old..|].
  destruct (addCachedEndpoints_Returns _ _ _ _ _ _ Hadd)
    as (entry & _ & Hcache & _ & _ & Hdom).
  simpl. rewrite Hcache.
  destruct (decide (CanonicalAuthorityURI authorityInfo = k)) as [<-|Hne];
    [|rewrite lookup_insert_ne by done; by exists old].
  rewrite lookup_insert_eq. exists entry. split; [done|].
  destruct (decide (AuthorityType_of authorityInfo = ADFS)) as [Hty|Hty];
    [by apply Hdom|].
  by rewrite (tryGetCachedEndpoints_standard _ _ _ _ old) in Htry.
Qed.

(** X4: a call for a standard (non-ADFS) authority never replaces or
    alters an entry that is already in the cache, whatever its URI: cached
    endpoints of a standard authority are never refreshed. *)
Theorem ResolveEndpoints_standard_never_overwrites m authorityInfo upn w k entry :
  AuthorityType_of authorityInfo ≠ ADFS →
  endpointCacheEntries w !! k = Some entry →
  endpointCacheEntries (finalWorld (ResolveEndpoints create m authorityInfo upn w))
    !! k = Some entry.
Proof.
  intros Hty Hentry.
  destruct (ResolveEndpoints_effect m authorityInfo upn w)
    as [[-> _]|(em & url & Htry & _ & _ & _ & [[-> _]|(e & w' & -> & Hadd)])];
    [done..|].
  destruct (addCachedEndpoints_Returns _ _ _ _ _ _ Hadd) as (new & _ & Hcache & _).
  simpl. rewrite Hcache.
  destruct (decide (CanonicalAuthorityURI authorityInfo = k)) as [<-|Hne];
    [|by rewrite lookup_insert_ne].
  by rewrite (tryGetCachedEndpoints_standard _ _ _ _ entry) in Htry.
Qed.

(** X5: for an ADFS authority, a name without [@] never yields
    endpoints: the call ends in an error or in a panic, in every state and
    whatever the collaborators answer. *)
Theorem ResolveEndpoints_ADFS_no_at_never_endpoints m authorityInfo upn w e w' :
  AuthorityType_of authorityInfo = ADFS →
  Strings.Contains upn "@" = false →
  ResolveEndpoints create m authorityInfo upn w ≠ Returns (Ok e) w'.
Proof.
  intros Hty Hno Hres.
  destruct (ResolveEndpoints_Ok _ _ _ _ _ _ _ Hres) as (_ & (entry & _ & _ & Hd) & _).
  destruct (Hd Hty) as (d & Hsplit & _).
  assert (Strings.Contains upn "@" = true) as Hyes
    by (apply Split_at_second; eauto).
  congruence.
Qed.

(** X6: for an ADFS authority without a cache entry, a non-empty name
    without [@] is only found out after the network round trip: when the
    Discovery Fetcher answers with a complete document, the request has been
    made, and the call then panics in [addCachedEndpoints] without caching
    anything. *)
Theorem ResolveEndpoints_ADFS_no_at_panics_after_request
    m authorityInfo upn w endpointManager url doc :
  AuthorityType_of authorityInfo = ADFS →
  upn ≠ "" →
  Strings.Contains upn "@" = false →
  endpointCacheEntries w !! CanonicalAuthorityURI authorityInfo = None →
  create authorityInfo = Ok endpointManager →
  getOpenIDConfigurationEndpoint endpointManager authorityInfo upn = Ok url →
  tenantDiscoveryResponse (webRequestManager m) (discoveryRequests w) url = Ok doc →
  AuthorizationEndpoint doc ≠ "" → TokenEndpoint doc ≠ "" → Issuer doc ≠ "" →
  ResolveEndpoints create m authorityInfo upn w
  = Panics "index out of range" (requested w url).
Proof.
  intros Hty Hupn Hno Hnone Hcreate Hurl Hdoc Ha Ht Hi.
  assert (Strings.Split upn "@" !! 1 = None) as Hd.
  { apply eq_None_not_Some. rewrite Split_at_second. by rewrite Hno. }
  unfold ResolveEndpoints. rewrite upn_check_passes by done. go_unfold_all.
  rewrite tryGetCachedEndpoints_absent by done.
  rewrite Hcreate, Hurl, Hdoc.
  unfold HasAuthorizationEndpoint, HasTokenEndpoint, HasIssuer.
  rewrite !bool_decide_eq_false_2 by done. simpl.
  by rewrite addCachedEndpoints_adfs_panic.
Qed.

(** X7: [getAdfsDomainFromUpn] returns [d] exactly for the names
    [a@d] and [a@d@...] in which neither [a] nor [d] contains an [@]; in
    particular the domain it returns never contains an [@]. *)
Theorem getAdfsDomainFromUpn_Returns_iff upn d w :
  getAdfsDomainFromUpn upn w = Returns d w
  ↔ ∃ a rest,
      upn = a +:+ "@" +:+ d +:+ rest
      ∧ Strings.Contains a "@" = false
      ∧ Strings.Contains d "@" = false
      ∧ (rest = "" ∨ Strings.HasPrefix rest "@" = true).
Proof.
  split.
  - intros Hd%getAdfsDomainFromUpn_Returns_inv.
    rewrite Split_unfold in Hd by done.
    destruct (Strings.Index upn "@") as [i|] eqn:Hi; [|done].
    destruct (Index_Some_split _ _ _ Hi) as [Hupn Hlen].
    remember (Strings.slice_from (i + String.length "@") upn) as rest1 eqn:Hrest1.
    simpl in Hd.
    assert (Strings.Index (Strings.slice_to i upn) "@" = None) as Ha
      by (by apply Index_slice_to_None).
    rewrite Split_unfold in Hd by done.
    destruct (Strings.Index rest1 "@") as [j|] eqn:Hj; simpl in Hd.
    + injection Hd as <-. destruct (Index_Some_split _ _ _ Hj) as [Hcut Hlenj].
      exists (Strings.slice_to i upn),
             ("@" +:+ Strings.slice_from (j + String.length "@") rest1).
      split; [by rewrite <-Hcut|]. split; [by apply Contains_false|].
      split; [|right; apply HasPrefix_app].
      apply Contains_false. by apply Index_slice_to_None.
    + injection Hd as <-. exists (Strings.slice_to i upn), "".
      split; [by rewrite app_empty_r|]. split; [by apply Contains_false|].
      split; [by apply Contains_false|by left].
  - intros (a & rest & -> & Ha & Hd & Hrest).
    apply getAdfsDomainFromUpn_Some. by apply Split_at_domain.
Qed.

(** X8: an ADFS entry is valid per domain, not per user: once a call
    has returned endpoints for a name, every name with the same domain is
    served these endpoints from the cache, through any manager and without a
    request. *)
Theorem ResolveEndpoints_ADFS_same_domain_hit
    m1 m2 authorityInfo upn upn2 w e w1 d :
  AuthorityType_of authorityInfo = ADFS →
  ResolveEndpoints create m1 authorityInfo upn w = Returns (Ok e) w1 →
  getAdfsDomainFromUpn upn w = Returns d w →
  getAdfsDomainFromUpn upn2 w1 = Returns d w1 →
  ResolveEndpoints create m2 authorityInfo upn2 w1 = Returns (Ok e) w1.
Proof.
  intros Hty Hres Hd%getAdfsDomainFromUpn_Returns_inv
    Hd2%getAdfsDomainFromUpn_Returns_inv.
  destruct (ResolveEndpoints_Ok _ _ _ _ _ _ _ Hres)
    as (_ & (entry & Hentry & <- & Hdom) & _).
  destruct (Hdom Hty) as (d' & Hd' & Hin).
  apply ResolveEndpoints_hit; [done|]. intros _. exists d. split; [done|].
  congruence.
Qed.

(** X9: discoveries for an ADFS authority compose: after endpoints have
    been returned for a first name and then for a second one, the first
    name is still served from the cache, and what it is served are the
    endpoints of the latest call, not the ones it was first given. *)
Theorem ResolveEndpoints_ADFS_serves_latest
    m1 m2 m3 authorityInfo upn1 upn2 w e1 w1 e2 w2 :
  AuthorityType_of authorityInfo = ADFS →
  ResolveEndpoints create m1 authorityInfo upn1 w = Returns (Ok e1) w1 →
  ResolveEndpoints create m2 authorityInfo upn2 w1 = Returns (Ok e2) w2 →
  ResolveEndpoints create m3 authorityInfo upn1 w2 = Returns (Ok e2) w2.
Proof.
  intros Hty Hres1 Hres2.
  destruct (ResolveEndpoints_Ok _ _ _ _ _ _ _ Hres1)
    as (_ & (entry1 & Hentry1 & _ & Hdom1) & _).
  destruct (Hdom1 Hty) as (d1 & Hd1 & Hin1).
  destruct (ResolveEndpoints_Ok _ _ _ _ _ _ _ Hres2)
    as (_ & (entry2 & Hentry2 & <- & _) & _).
  apply ResolveEndpoints_hit; [done|]. intros _. exists d1. split; [done|].
  destruct (ResolveEndpoints_effect m2 authorityInfo upn2 w1)
    as [[Hw _]|(em & url & _ & _ & _ & _ & [[_ Hno]|(e & w' & Hres & Hadd)])].
  - rewrite Hres2 in Hw. simpl in Hw. subst w2. congruence.
  - by destruct (Hno _ _ Hres2).
  - rewrite Hres2 in Hres. injection Hres as <- <-.
    destruct (addCachedEndpoints_Returns _ _ _ _ _ _ Hadd)
      as (entry & _ & Hcache & _ & _ & Hsub).
    rewrite Hcache, lookup_insert_eq in Hentry2. injection Hentry2 as ->.
    apply elem_of_dom, (Hsub Hty entry1 Hentry1), elem_of_dom, Hin1.
Qed.

(** X10: in every state a process can reach, the domain maps of the
    cache hold no value but [true], so that testing a domain for presence,
    as [tryGetCachedEndpoints] does, and reading its value agree. *)
Theorem Reachable_domains_true w k entry d b :
  Reachable create w →
  endpointCacheEntries w !! k = Some entry →
  ValidForDomainsInList entry !! d = Some b →
  b = true.
Proof.
  intros Hreach. revert k entry d b.
  induction Hreach as [|w m authorityInfo upn Hreach IH]; intros k entry d b.
  { simpl. by rewrite lookup_empty. }
  destruct (ResolveEndpoints_effect m authorityInfo upn w)
    as [[-> _]|(em & url & _ & _ & _ & _ & [[-> _]|(e & w' & -> & Hadd)])];
    [by apply IH..|].
  destruct (addCachedEndpoints_Returns _ _ _ _ _ _ Hadd)
    as (new & _ & Hcache & _ & Htrue & _).
  simpl. rewrite Hcache.
  destruct (decide (CanonicalAuthorityURI authorityInfo = k)) as [<-|Hne].
  - rewrite lookup_insert_eq. intros [= <-]. apply Htrue.
  - rewrite lookup_insert_ne by done. apply IH.
Qed.

(** X11: in every state a process can reach, the cache holds at most as
    many authorities as discovery requests have been made: an entry is
    never created without a request. *)
Theorem Reachable_size_le_requests w :
  Reachable create w →
  size (endpointCacheEntries w) ≤ length (discoveryRequests w).
Proof.
  induction 1 as [|w m authorityInfo upn Hreach IH]; [done|].
  destruct (ResolveEndpoints_effect m authorityInfo upn w)
    as [[-> _]|(em & url & _ & _ & _ & _ & [[-> _]|(e & w' & -> & Hadd)])];
    [done|simpl; rewrite length_app; simpl; lia|].
  destruct (addCachedEndpoints_Returns _ _ _ _ _ _ Hadd)
    as (new & _ & Hcache & Htrace & _).
  simpl. rewrite Hcache, Htrace. simpl. rewrite length_app. simpl.
  destruct (endpointCacheEntries w !! CanonicalAuthorityURI authorityInfo)
    as [old|] eqn:Hold.
  - rewrite map_size_insert_Some by eauto. lia.
  - rewrite map_size_insert_None by done. lia.
Qed.

(** The endpoints that a call returns after a request. *)
Lemma ResolveEndpoints_discovered_endpoints m authorityInfo upn w e w1 url doc :
  ResolveEndpoints create m authorityInfo upn w = Returns (Ok e) w1 →
  discoveryRequests w1 = discoveryRequests w ++ [url] →
  tenantDiscoveryResponse (webRequestManager m) (discoveryRequests w) url = Ok doc →
  e = CreateAuthorityEndpoints
        (Strings.Replace (AuthorizationEndpoint doc) "{tenant}"
           (Tenant authorityInfo) (-1))
        (Strings.Replace (TokenEndpoint doc) "{tenant}" (Tenant authorityInfo) (-1))
        (Strings.Replace (Issuer doc) "{tenant}" (Tenant authorityInfo) (-1))
        (Host authorityInfo).
Proof.
  unfold ResolveEndpoints. go_unfold_all.
  destruct (_ && _); [done|].
  destruct (tryGetCachedEndpoints _ _ _ _) as [[e0|] w0|msg0 w0] eqn:Htry; [| |done].
  { apply tryGetCachedEndpoints_Returns in Htry as ->.
    intros [= -> ->] Htrace. apply (f_equal length) in Htrace.
    rewrite length_app in Htrace. simpl in Htrace. lia. }
  apply tryGetCachedEndpoints_Returns in Htry as ->.
  destruct (create authorityInfo) as [em|e1]; [|done].
  destruct (getOpenIDConfigurationEndpoint _ _ _) as [url'|e2]; [|done].
  destruct (tenantDiscoveryResponse _ _ url') as [doc'|e3] eqn:Hdoc'; [|done].
  destruct (negb (HasAuthorizationEndpoint doc')); [done|].
  destruct (negb (HasTokenEndpoint doc')); [done|].
  destruct (negb (HasIssuer doc')); [done|].
  match goal with
  | |- context [addCachedEndpoints ?m ?a ?u ?x ?w] =>
      pose proof (addCachedEndpoints_trace m a u x w) as Htr;
      destruct (addCachedEndpoints m a u x w) as [[] w2|msg w2]; [|done]
  end.
  intros [= <- <-] Htrace Hdoc. simpl in Htr.
  rewrite Htr in Htrace. apply (inj (app _)) in Htrace. simplify_eq.
  rewrite Hdoc in Hdoc'. by simplify_eq.
Qed.

(** X12: a discovery document that does not use the [{tenant}]
    placeholder is returned field by field as the Discovery Fetcher gave
    it, whatever the tenant of the authority is. *)
Theorem ResolveEndpoints_no_placeholder_verbatim
    m authorityInfo upn w e w1 url doc :
  ResolveEndpoints create m authorityInfo upn w = Returns (Ok e) w1 →
  discoveryRequests w1 = discoveryRequests w ++ [url] →
  tenantDiscoveryResponse (webRequestManager m) (discoveryRequests w) url = Ok doc →
  Strings.Contains (AuthorizationEndpoint doc) "{tenant}" = false →
  Strings.Contains (TokenEndpoint doc) "{tenant}" = false →
  Strings.Contains (Issuer doc) "{tenant}" = false →
  e = CreateAuthorityEndpoints (AuthorizationEndpoint doc) (TokenEndpoint doc)
        (Issuer doc) (Host authorityInfo).
Proof.
  intros Hres Htrace Hdoc Ha%Contains_false Ht%Contains_false Hi%Contains_false.
  rewrite (ResolveEndpoints_discovered_endpoints _ _ _ _ _ _ _ _ Hres Htrace Hdoc).
  rewrite !Replace_unfold by done. by rewrite Ha, Ht, Hi.
Qed.

End ResolverEffects.

(** * Further properties of the helpers *)

Lemma Split_not_nil s sep : sep ≠ "" → Strings.Split s sep ≠ [].
Proof.
  intros Hsep. rewrite Split_unfold by done. by destruct (Strings.Index s sep).
Qed.

Lemma Join_cons e rest sep :
  rest ≠ [] → Strings.Join (e :: rest) sep = e +:+ sep +:+ Strings.Join rest sep.
Proof. by destruct rest. Qed.

(** X13: [strings.Split], as [getAdfsDomainFromUpn] calls it, cuts a
    text at every separator and loses nothing: joining the pieces with the
    separator gives the text back, no piece contains the separator, and
    there is one piece more than [strings.Count] counts separators. *)
Theorem Split_Join s sep :
  sep ≠ "" →
  Strings.Join (Strings.Split s sep) sep = s
  ∧ Forall (λ piece, Strings.Contains piece sep = false) (Strings.Split s sep)
  ∧ length (Strings.Split s sep) = S (Strings.Count s sep).
Proof.
  intros Hsep. remember (String.length s) as n eqn:Hn. revert s Hn.
  induction (lt_wf n) as [n _ IH]; intros s ->.
  rewrite Split_unfold, Count_unfold by done.
  destruct (Strings.Index s sep) as [i|] eqn:Hi.
  - pose proof (Index_rest_shorter _ _ _ Hsep Hi) as Hlt.
    destruct (IH _ Hlt _ eq_refl) as (Hjoin & Hpieces & Hlen).
    destruct (Index_Some_split _ _ _ Hi) as [Hs _].
    split; [|split].
    + rewrite Join_cons by by apply Split_not_nil. by rewrite Hjoin, <-Hs.
    + constructor; [|done]. apply Contains_false. by apply Index_slice_to_None.
    + simpl. by rewrite Hlen.
  - split; [done|]. split; [|done].
    constructor; [|done]. by apply Contains_false.
Qed.

Section FakeBrowser.

Context {URL : Type}.
Context (url_Parse : string → result URL) (Query : URL → Browser.Values).
Context (http_Get : list string → string → result Z).

Local Abbreviation fake := (Browser.fakeBrowserOpenURL url_Parse Query http_Get).

(** The URL that [fakeBrowserOpenURL] requests from the redirect server. *)
Local Abbreviation target q :=
  (Browser.Get q "redirect_uri"
     +:+ ("/?state=" +:+ Browser.Get q "state" +:+ "&code=fake_auth_code")).

(** X14: [fakeBrowserOpenURL] returns [nil] exactly when the URL parses,
    its query has a code challenge, the challenge method [S256], a prompt, a
    state and a redirect URI, and the one request it then makes, to the
    redirect URI with the state and the code [fake_auth_code], is answered
    with status 200. *)
Theorem fakeBrowserOpenURL_nil_iff authURL requested requested' :
  fake authURL requested = (None, requested')
  ↔ ∃ u,
      url_Parse authURL = Ok u
      ∧ Browser.Get (Query u) "code_challenge" ≠ ""
      ∧ Browser.Get (Query u) "code_challenge_method" = "S256"
      ∧ Browser.Get (Query u) "prompt" ≠ ""
      ∧ Browser.Get (Query u) "state" ≠ ""
      ∧ Browser.Get (Query u) "redirect_uri" ≠ ""
      ∧ http_Get requested (target (Query u)) = Ok Browser.StatusOK
      ∧ requested' = requested ++ [target (Query u)].
Proof.
  unfold Browser.fakeBrowserOpenURL. split.
  - destruct (url_Parse authURL) as [u|err]; [|done].
    repeat (case_bool_decide; simpl; [done|]).
    case_bool_decide as Hm; simpl; [|done].
    repeat (case_bool_decide; simpl; [done|]).
    destruct (http_Get _ _) as [status|err] eqn:Hget; [|done].
    case_bool_decide as Hstatus; simpl; [|done].
    intros [= <-]. exists u. subst status. by repeat split.
  - intros (u & -> & Hcc & Hm & Hprompt & Hstate & Hredirect & Hget & ->).
    rewrite (bool_decide_eq_false_2 _ Hcc), (bool_decide_eq_true_2 _ Hm),
      (bool_decide_eq_false_2 _ Hprompt), (bool_decide_eq_false_2 _ Hstate),
      (bool_decide_eq_false_2 _ Hredirect). simpl.
    rewrite Hget. by rewrite bool_decide_eq_true_2.
Qed.

(** X15: an authorization URL that lacks one of the five parameters, or
    names another challenge method than [S256], is refused with an error
    before any request to the redirect server. *)
Theorem fakeBrowserOpenURL_invalid_no_request authURL requested u :
  url_Parse authURL = Ok u →
  Browser.Get (Query u) "code_challenge" = ""
  ∨ Browser.Get (Query u) "code_challenge_method" ≠ "S256"
  ∨ Browser.Get (Query u) "prompt" = ""
  ∨ Browser.Get (Query u) "state" = ""
  ∨ Browser.Get (Query u) "redirect_uri" = "" →
  ∃ err, fake authURL requested = (Some err, requested).
Proof.
  intros Hparse Hbad. unfold Browser.fakeBrowserOpenURL. rewrite Hparse.
  case_bool_decide as Hcc; simpl; [by eexists|].
  case_bool_decide as Hm; simpl; [|by eexists].
  case_bool_decide as Hprompt; simpl; [by eexists|].
  case_bool_decide as Hstate; simpl; [by eexists|].
  case_bool_decide as Hredirect; simpl; [by eexists|].
  by destruct Hbad as [?|[?|[?|[?|?]]]].
Qed.

End FakeBrowser.

(** X16: with no error pending in the captured variable, [validate]
    accepts a query exactly when either no hint is expected and the query
    has no [login_hint], or a hint is expected and [login_hint] has the
    single value [upn]. *)
Theorem validate_accepts_iff expectHint upn (v : Browser.Values) :
  (Browser.validate expectHint upn v None).1 = None
  ↔ (expectHint = false ∧ v !! "login_hint" = None)
    ∨ (expectHint = true ∧ v !! "login_hint" = Some [upn]).
Proof.
  unfold Browser.validate, Browser.Has.
  destruct (v !! "login_hint") as [actual|] eqn:Hv.
  - rewrite bool_decide_eq_true_2 by eauto. simpl.
    destruct expectHint; simpl.
    + destruct actual as [|x [|y actual]]; simpl.
      * split; [done|]. by intros [[??]|[_ ?]].
      * case_bool_decide as Hx; simpl.
        -- injection Hx as ->. split; [by right|done].
        -- split; [done|]. intros [[??]|[_ ?]]; [done|]. by simplify_eq.
      * split; [done|]. by intros [[??]|[_ ?]].
    + split; [done|]. by intros [[_ ?]|[??]].
  - rewrite bool_decide_eq_false_2 by (by intros [??]). simpl.
    destruct expectHint; simpl.
    + split; [done|]. by intros [[??]|[_ ?]].
    + split; [by left|done].
Qed.

(** X17: [validate] assigns the captured variable [err] only when a hint
    is expected, present and wrong, and then returns the new error; with an
    expected and correct hint it returns whatever [err] holds, so that an
    error left there earlier is reported again. *)
Theorem validate_captured_err expectHint upn (v : Browser.Values) err :
  ((Browser.validate expectHint upn v err).2 ≠ err →
   expectHint = true
   ∧ (∃ actual, v !! "login_hint" = Some actual ∧ actual ≠ [upn])
   ∧ (Browser.validate expectHint upn v err).1
     = (Browser.validate expectHint upn v err).2)
  ∧ (expectHint = true → v !! "login_hint" = Some [upn] →
     Browser.validate expectHint upn v err = (err, err)).
Proof.
  unfold Browser.validate, Browser.Has. split.
  - destruct (v !! "login_hint") as [actual|] eqn:Hv.
    + rewrite bool_decide_eq_true_2 by eauto. simpl.
      destruct expectHint; simpl; [|done].
      intros Hchanged. split; [done|]. split; [|done].
      exists actual. split; [done|]. intros ->. simpl in Hchanged.
      by rewrite bool_decide_eq_true_2 in Hchanged.
    + rewrite bool_decide_eq_false_2 by (by intros [??]). simpl.
      by destruct expectHint.
  - intros -> Hv. rewrite Hv, bool_decide_eq_true_2 by eauto. simpl.
    by rewrite bool_decide_eq_true_2.
Qed.

(** ** Concrete runs of the further properties *)

Import Runs.

Lemma ResolveEndpoints_keeps_entries_and_domains_witness :
  endpointCacheEntries (adfsWorld "y.com") !! "https://fs.contoso.com/adfs/"
  = Some (adfsEntry "y.com")
  ∧ ∃ new,
      endpointCacheEntries
        (finalWorld
           (ResolveEndpoints createEndpointManager
              (CreateAuthorityEndpointResolutionManager (wrmReturning adfsDocument))
              adfsAuthorityInfo "user@x.com" (adfsWorld "y.com")))
        !! "https://fs.contoso.com/adfs/" = Some new
      ∧ dom (ValidForDomainsInList (adfsEntry "y.com"))
        ⊆ dom (ValidForDomainsInList new).
Proof.
  split; [vm_compute; reflexivity|].
  apply (ResolveEndpoints_keeps_entries_and_domains createEndpointManager
           (CreateAuthorityEndpointResolutionManager (wrmReturning adfsDocument))
           adfsAuthorityInfo "user@x.com" (adfsWorld "y.com")).
  vm_compute. reflexivity.
Defined.

Lemma ResolveEndpoints_standard_never_overwrites_witness :
  AuthorityType_of contosoAuthorityInfo ≠ ADFS
  ∧ endpointCacheEntries resolvedWorld !! "https://login.microsoftonline.com/v2.0/"
    = Some (createAuthorityEndpointCacheEntry testAuthorityEndpoints)
  ∧ endpointCacheEntries
      (finalWorld
         (ResolveEndpoints createEndpointManager
            (CreateAuthorityEndpointResolutionManager (wrmReturning tdrTemplate))
            contosoAuthorityInfo "" resolvedWorld))
      !! "https://login.microsoftonline.com/v2.0/"
    = Some (createAuthorityEndpointCacheEntry testAuthorityEndpoints).
Proof.
  split; [discriminate|]. split; [vm_compute; reflexivity|].
  apply (ResolveEndpoints_standard_never_overwrites createEndpointManager
           (CreateAuthorityEndpointResolutionManager (wrmReturning tdrTemplate))
           contosoAuthorityInfo "" resolvedWorld).
  - discriminate.
  - vm_compute. reflexivity.
Defined.

Lemma ResolveEndpoints_ADFS_no_at_never_endpoints_witness :
  AuthorityType_of adfsAuthorityInfo = ADFS
  ∧ Strings.Contains "user" "@" = false
  ∧ ResolveEndpoints createEndpointManager
      (CreateAuthorityEndpointResolutionManager (wrmReturning adfsDocument))
      adfsAuthorityInfo "user" initialWorld
    ≠ Returns (Ok adfsEndpoints) adfsWorldX.
Proof.
  split; [reflexivity|]. split; [reflexivity|].
  apply (ResolveEndpoints_ADFS_no_at_never_endpoints createEndpointManager);
    reflexivity.
Defined.

Lemma ResolveEndpoints_ADFS_no_at_panics_after_request_witness :
  AuthorityType_of adfsAuthorityInfo = ADFS
  ∧ "user" ≠ ""
  ∧ Strings.Contains "user" "@" = false
  ∧ ResolveEndpoints createEndpointManager
      (CreateAuthorityEndpointResolutionManager (wrmReturning adfsDocument))
      adfsAuthorityInfo "user" initialWorld
    = Panics "index out of range"
        {| endpointCacheEntries := endpointCacheEntries initialWorld;
           discoveryRequests := discoveryRequests initialWorld ++ [adfsURL] |}.
Proof.
  split; [reflexivity|]. split; [discriminate|]. split; [reflexivity|].
  apply (ResolveEndpoints_ADFS_no_at_panics_after_request createEndpointManager
           (CreateAuthorityEndpointResolutionManager (wrmReturning adfsDocument))
           adfsAuthorityInfo "user" initialWorld endpointManager adfsURL adfsDocument);
    try reflexivity; discriminate.
Defined.

Lemma ResolveEndpoints_ADFS_same_domain_hit_witness :
  AuthorityType_of adfsAuthorityInfo = ADFS
  ∧ ResolveEndpoints createEndpointManager
      (CreateAuthorityEndpointResolutionManager (wrmReturning adfsDocument))
      adfsAuthorityInfo "alice@x.com" initialWorld
    = Returns (Ok adfsEndpoints) adfsWorldX
  ∧ ResolveEndpoints createEndpointManager
      (CreateAuthorityEndpointResolutionManager wrmFailing)
      adfsAuthorityInfo "bob@x.com" adfsWorldX
    = Returns (Ok adfsEndpoints) adfsWorldX.
Proof.
  split; [reflexivity|]. split; [vm_compute; reflexivity|].
  apply (ResolveEndpoints_ADFS_same_domain_hit createEndpointManager
           (CreateAuthorityEndpointResolutionManager (wrmReturning adfsDocument))
           (CreateAuthorityEndpointResolutionManager wrmFailing)
           adfsAuthorityInfo "alice@x.com" "bob@x.com" initialWorld
           adfsEndpoints adfsWorldX "x.com").
  - reflexivity.
  - vm_compute. reflexivity.
  - vm_compute. reflexivity.
  - vm_compute. reflexivity.
Defined.

Lemma ResolveEndpoints_ADFS_serves_latest_witness :
  AuthorityType_of adfsAuthorityInfo = ADFS
  ∧ ResolveEndpoints createEndpointManager
      (CreateAuthorityEndpointResolutionManager (wrmReturning adfsDocument))
      adfsAuthorityInfo "alice@x.com" initialWorld
    = Returns (Ok adfsEndpoints) adfsWorldX
  ∧ ResolveEndpoints createEndpointManager
      (CreateAuthorityEndpointResolutionManager (wrmReturning tdr))
      adfsAuthorityInfo "bob@y.com" adfsWorldX
    = Returns (Ok adfsEndpointsFromTdr) adfsWorldXY
  ∧ ResolveEndpoints createEndpointManager
      (CreateAuthorityEndpointResolutionManager wrmFailing)
      adfsAuthorityInfo "alice@x.com" adfsWorldXY
    = Returns (Ok adfsEndpointsFromTdr) adfsWorldXY.
Proof.
  split; [reflexivity|]. split; [vm_compute; reflexivity|].
  split; [vm_compute; reflexivity|].
  apply (ResolveEndpoints_ADFS_serves_latest createEndpointManager
           (CreateAuthorityEndpointResolutionManager (wrmReturning adfsDocument))
           (CreateAuthorityEndpointResolutionManager (wrmReturning tdr))
           (CreateAuthorityEndpointResolutionManager wrmFailing)
           adfsAuthorityInfo "alice@x.com" "bob@y.com" initialWorld
           adfsEndpoints adfsWorldX adfsEndpointsFromTdr adfsWorldXY).
  - reflexivity.
  - vm_compute. reflexivity.
  - vm_compute. reflexivity.
Defined.

Lemma Reachable_adfsWorldXY : Reachable createEndpointManager adfsWorldXY.
Proof.
  replace adfsWorldXY
    with (finalWorld
            (ResolveEndpoints createEndpointManager
               (CreateAuthorityEndpointResolutionManager (wrmReturning tdr))
               adfsAuthorityInfo "bob@y.com"
               (finalWorld
                  (ResolveEndpoints createEndpointManager
                     (CreateAuthorityEndpointResolutionManager
                        (wrmReturning adfsDocument))
                     adfsAuthorityInfo "alice@x.com" initialWorld))))
    by (vm_compute; reflexivity).
  apply reachable_call, reachable_call, reachable_start.
Defined.

Lemma Reachable_domains_true_witness :
  Reachable createEndpointManager adfsWorldXY
  ∧ endpointCacheEntries adfsWorldXY !! "https://fs.contoso.com/adfs/"
    = Some {| Endpoints := adfsEndpointsFromTdr;
              ValidForDomainsInList := {[ "y.com" := true; "x.com" := true ]} |}
  ∧ ∀ b, ({[ "y.com" := true; "x.com" := true ]} : gmap string bool) !! "x.com"
         = Some b → b = true.
Proof.
  split; [exact Reachable_adfsWorldXY|]. split; [vm_compute; reflexivity|].
  intros b Hb.
  apply (Reachable_domains_true createEndpointManager adfsWorldXY
           "https://fs.contoso.com/adfs/"
           {| Endpoints := adfsEndpointsFromTdr;
              ValidForDomainsInList := {[ "y.com" := true; "x.com" := true ]} |}
           "x.com" b).
  - exact Reachable_adfsWorldXY.
  - vm_compute. reflexivity.
  - exact Hb.
Defined.

Lemma Reachable_size_le_requests_witness :
  Reachable createEndpointManager adfsWorldXY
  ∧ size (endpointCacheEntries adfsWorldXY) ≤ length (discoveryRequests adfsWorldXY).
Proof.
  split; [exact Reachable_adfsWorldXY|].
  apply (Reachable_size_le_requests createEndpointManager adfsWorldXY).
  exact Reachable_adfsWorldXY.
Defined.

Lemma ResolveEndpoints_no_placeholder_verbatim_witness :
  ResolveEndpoints createEndpointManager
    (CreateAuthorityEndpointResolutionManager (wrmReturning tdr))
    testAuthorityInfo "" initialWorld
  = Returns (Ok testAuthorityEndpoints) resolvedWorld
  ∧ Strings.Contains (AuthorizationEndpoint tdr) "{tenant}" = false
  ∧ Strings.Contains (TokenEndpoint tdr) "{tenant}" = false
  ∧ Strings.Contains (Issuer tdr) "{tenant}" = false
  ∧ testAuthorityEndpoints
    = CreateAuthorityEndpoints (AuthorizationEndpoint tdr) (TokenEndpoint tdr)
        (Issuer tdr) (Host testAuthorityInfo).
Proof.
  split; [vm_compute; reflexivity|]. do 3 (split; [reflexivity|]).
  apply (ResolveEndpoints_no_placeholder_verbatim createEndpointManager
           (CreateAuthorityEndpointResolutionManager (wrmReturning tdr))
           testAuthorityInfo "" initialWorld testAuthorityEndpoints resolvedWorld
           openIDConfigurationURL tdr);
    first [reflexivity|vm_compute; reflexivity].
Defined.

Lemma Split_Join_witness :
  "@" ≠ ""
  ∧ Strings.Join (Strings.Split "user@dept@contoso.com" "@") "@"
    = "user@dept@contoso.com"
  ∧ Forall (λ piece, Strings.Contains piece "@" = false)
      (Strings.Split "user@dept@contoso.com" "@")
  ∧ length (Strings.Split "user@dept@contoso.com" "@")
    = S (Strings.Count "user@dept@contoso.com" "@").
Proof.
  split; [discriminate|].
  apply (Split_Join "user@dept@contoso.com" "@"). discriminate.
Defined.

Lemma fakeBrowserOpenURL_invalid_no_request_witness :
  parseFrom {[ "https://login/authorize" := queryWithoutState ]}
    "https://login/authorize" = Ok queryWithoutState
  ∧ Browser.Get queryWithoutState "state" = ""
  ∧ ∃ err,
      Browser.fakeBrowserOpenURL
        (parseFrom {[ "https://login/authorize" := queryWithoutState ]})
        id (λ _ _, Ok Browser.StatusOK) "https://login/authorize" []
      = (Some err, []).
Proof.
  split; [vm_compute; reflexivity|]. split; [vm_compute; reflexivity|].
  apply (fakeBrowserOpenURL_invalid_no_request
           (parseFrom {[ "https://login/authorize" := queryWithoutState ]})
           id (λ _ _, Ok Browser.StatusOK) "https://login/authorize" []
           queryWithoutState).
  - vm_compute. reflexivity.
  - right. right. right. left. vm_compute. reflexivity.
Defined.

Lemma validate_captured_err_witness :
  ({[ "login_hint" := ["user@localhost"] ]} : Browser.Values) !! "login_hint"
  = Some ["user@localhost"]
  ∧ Browser.validate true "user@localhost"
      {[ "login_hint" := ["user@localhost"] ]}
      (Some (errors_New "expected a login hint"))
    = (Some (errors_New "expected a login hint"),
       Some (errors_New "expected a login hint")).
Proof.
  split; [vm_compute; reflexivity|].
  apply (validate_captured_err true "user@localhost"
           {[ "login_hint" := ["user@localhost"] ]}
           (Some (errors_New "expected a login hint")));
    [reflexivity|vm_compute; reflexivity].
Defined.
